(** * awesome-panel examples: background tasks and image classifier

    A shallow embedding of [examples/async_tasks.py] and
    [examples/image_classifier.py].

    Conventions.
    - Python [int] is [Z].  Python [float] is IEEE binary64; the module
      [PyFloat] represents a finite double by the integer number of
      units of 2^-1074 it holds (every finite double is such a multiple)
      and implements correctly rounded division and multiplication with
      round-half-to-even.
    - Exceptions raised by the code itself (indexing, division, a bound
      check of a parameter) are values [Raise e] of [pyresult].  Calls into external
      libraries (Keras, PIL, numpy, the thread pool) are functions over
      abstract types and are recorded in an event log in the order in
      which the code performs them.  They are total, except for
      [Image.open], which receives the uploaded bytes as they are and
      raises on bytes that are no image. *)

From Stdlib Require Import ZArith Lia List String Bool.
From Stdlib Require Import SpecFloat.
Import ListNotations.

(** ** Exceptions and results *)

Inductive exn : Type :=
| ZeroDivisionError
| OverflowError
| IndexError
| ValueError
| UnidentifiedImageError.

Inductive pyresult (A : Type) : Type :=
| Ok (a : A)
| Raise (e : exn).
Arguments Ok {A} a.
Arguments Raise {A} e.

Definition rbind {A B : Type} (r : pyresult A) (k : A -> pyresult B) : pyresult B :=
  match r with
  | Ok a => k a
  | Raise e => Raise e
  end.

(** ** Python floats (IEEE binary64) *)

Module PyFloat.
Local Open Scope Z_scope.

(** The smallest positive double is 2^-1074; [unit] is the number of
    such steps in 1.0. *)
Definition unit : Z := 2 ^ 1074.

(** The first magnitude, in steps, that no finite double reaches
    (2^1024 in real terms). *)
Definition huge : Z := 2 ^ 2098.

Inductive pyfloat : Type :=
| Finite (n : Z)          (* the double n * 2^-1074 *)
| Infinity (neg : bool)
| NaN.

(** Round [p / q] to the nearest integer, ties to the even one
    ([0 <= p], [0 < q]). *)
Definition rne (p q : Z) : Z :=
  let d := p / q in
  match 2 * (p mod q) ?= q with
  | Lt => d
  | Gt => d + 1
  | Eq => if Z.even d then d else d + 1
  end.

(** Spacing exponent of the doubles around a magnitude of [d] steps:
    53 significant bits are kept. *)
Definition spacing (d : Z) : Z := Z.max 0 (Z.log2 d - 52).

(** The double nearest to [p / q] steps ([0 <= p], [0 < q]), in steps.
    The rounded value may reach [huge], which the callers turn into overflow. *)
Definition round_b64 (p q : Z) : Z :=
  let k := spacing (p / q) in
  rne p (q * 2 ^ k) * 2 ^ k.

(** [a / b] on Python ints: the correctly rounded quotient. *)
Definition true_div (a b : Z) : pyresult pyfloat :=
  if b =? 0 then Raise ZeroDivisionError
  else
    let n := round_b64 (Z.abs a * unit) (Z.abs b) in
    if huge <=? n then Raise OverflowError
    else Ok (Finite (Z.sgn a * Z.sgn b * n)).

(** [float(z)] *)
Definition float_of_int (z : Z) : pyresult pyfloat :=
  let n := round_b64 (Z.abs z * unit) 1 in
  if huge <=? n then Raise OverflowError
  else Ok (Finite (Z.sgn z * n)).

Definition is_zero (x : pyfloat) : bool :=
  match x with Finite 0 => true | _ => false end.

Definition is_neg (x : pyfloat) : bool :=
  match x with
  | Finite n => n <? 0
  | Infinity neg => neg
  | NaN => false
  end.

(** [x * y] on floats. *)
Definition fmul (x y : pyfloat) : pyfloat :=
  match x, y with
  | NaN, _ | _, NaN => NaN
  | Finite a, Finite b =>
      let n := round_b64 (Z.abs (a * b)) unit in
      if huge <=? n then Infinity (xorb (a <? 0) (b <? 0))
      else Finite (Z.sgn a * Z.sgn b * n)
  | _, _ =>
      if is_zero x || is_zero y then NaN
      else Infinity (xorb (is_neg x) (is_neg y))
  end.

(** [int(x)]: truncation toward zero. *)
Definition int_of_float (x : pyfloat) : pyresult Z :=
  match x with
  | Finite n => Ok (Z.quot n unit)
  | Infinity _ => Raise OverflowError
  | NaN => Raise ValueError
  end.

(** [z * x] with an int on the left: the int is converted first. *)
Definition int_mul_float (z : Z) (x : pyfloat) : pyresult pyfloat :=
  rbind (float_of_int z) (fun fz => Ok (fmul fz x)).

End PyFloat.

(** The same operations through the Standard Library's specification of
    IEEE 754 arithmetic, instantiated at binary64 (53 bits of precision,
    exponents below 1024).  It is used to cross-check [PyFloat] on
    operands that convert to floats exactly. *)
Module PyFloatReference.
Local Open Scope Z_scope.

Definition b64_of_int (z : Z) : spec_float := binary_normalize 53 1024 z 0 false.

Definition b64_div (a b : Z) : spec_float :=
  SFdiv 53 1024 (b64_of_int a) (b64_of_int b).

Definition b64_mul_int (z : Z) (x : spec_float) : spec_float :=
  SFmul 53 1024 (b64_of_int z) x.

(** The value of a finite double in steps of 2^-1074. *)
Definition steps (x : spec_float) : option Z :=
  match x with
  | S754_zero _ => Some 0
  | S754_finite s m e => Some ((if s then -1 else 1) * Z.pos m * 2 ^ (e + 1074))
  | _ => None
  end.

Definition steps_of (x : pyresult PyFloat.pyfloat) : option Z :=
  match x with
  | Ok (PyFloat.Finite n) => Some n
  | _ => None
  end.

(** Both computations of [100 * (c / n)] agree, quotient and product. *)
Definition agree (c n : Z) : bool :=
  match steps_of (PyFloat.true_div c n), steps (b64_div c n),
        steps_of (rbind (PyFloat.true_div c n) (PyFloat.int_mul_float 100)),
        steps (b64_mul_int 100 (b64_div c n))
  with
  | Some q, Some q', Some p, Some p' => (q =? q') && (p =? p')
  | _, _, _, _ => false
  end.

End PyFloatReference.

(** ** examples/async_tasks.py *)

Module AsyncTasks.
Import PyFloat.
Local Open Scope string_scope.
Local Open Scope Z_scope.

(** [class ProgressExtMod(param.Parameterized)] *)
Record ProgressExtMod : Type := {
  completed : Z;        (* param.Integer(default=0) *)
  bar_color : string;   (* param.String(default="info") *)
  num_tasks : Z         (* param.Integer(default=100, bounds=(1, None)) *)
}.

Definition ProgressExtMod_new : ProgressExtMod :=
  {| completed := 0; bar_color := "info"; num_tasks := 100 |}.

Definition set_completed (v : Z) (self : ProgressExtMod) : ProgressExtMod :=
  {| completed := v; bar_color := bar_color self; num_tasks := num_tasks self |}.

(** Assignment to [num_tasks]: the parameter checks its bounds
    [(1, None)] and raises [ValueError] below 1. *)
Definition set_num_tasks (v : Z) (self : ProgressExtMod) : pyresult ProgressExtMod :=
  if v <? 1 then Raise ValueError
  else Ok {| completed := completed self; bar_color := bar_color self;
             num_tasks := v |}.

(** [int(100 * (self.completed / self.num_tasks))] *)
Definition value (self : ProgressExtMod) : pyresult Z :=
  rbind (true_div (completed self) (num_tasks self)) (fun ratio =>
  rbind (int_mul_float 100 ratio) int_of_float).

Definition reset (self : ProgressExtMod) : ProgressExtMod :=
  set_completed 0 self.

(** [pn.widgets.Progress(active=True, value=..., align="center",
    sizing_mode="stretch_width")] *)
Record Progress : Type := {
  active : bool;
  progress_value : Z;
  align : string;
  sizing_mode : string
}.

(** [view]: the widget when [value] is truthy, otherwise [None]. *)
Definition view (self : ProgressExtMod) : pyresult (option Progress) :=
  rbind (value self) (fun v =>
    if v =? 0 then Ok None
    else Ok (Some {| active := true; progress_value := v;
                     align := "center"; sizing_mode := "stretch_width" |})).

(** [increment] is a generator-based context manager: the part before
    [yield] runs on entry, the part after it on normal exit. *)
Definition increment_enter (self : ProgressExtMod) : ProgressExtMod :=
  set_completed (completed self + 1) self.

Definition increment_exit (self : ProgressExtMod) : ProgressExtMod :=
  if completed self =? num_tasks self then reset self else self.

(** One completed [increment] call whose body leaves the progress
    object alone. *)
Definition increment_call (self : ProgressExtMod) : ProgressExtMod :=
  increment_exit (increment_enter self).

(** [k] such calls, one after the other. *)
Fixpoint increment_calls (k : nat) (self : ProgressExtMod) : ProgressExtMod :=
  match k with
  | O => self
  | S k' => increment_call (increment_calls k' self)
  end.

(** What the executor and the IOLoop hold. *)
Inductive TaskFn : Type := blocking_task.
Inductive Callback : Type := update.

Record Future : Type := { future_id : nat }.

Record World : Type := {
  progress : ProgressExtMod;                 (* module-level [progress] *)
  result : Z;                               (* AsyncComponent.result *)
  next_future : nat;
  executor_queue : list (Future * TaskFn);   (* executor.submit, in order *)
  ioloop_callbacks : list (Future * Callback) (* loop.add_future, in order *)
}.

Definition with_progress (p : ProgressExtMod) (w : World) : World :=
  {| progress := p; result := result w; next_future := next_future w;
     executor_queue := executor_queue w;
     ioloop_callbacks := ioloop_callbacks w |}.

Definition with_result (r : Z) (w : World) : World :=
  {| progress := progress w; result := r; next_future := next_future w;
     executor_queue := executor_queue w;
     ioloop_callbacks := ioloop_callbacks w |}.

(** [future = executor.submit(fn)] *)
Definition executor_submit (fn : TaskFn) (w : World) : Future * World :=
  let fut := {| future_id := next_future w |} in
  (fut,
   {| progress := progress w; result := result w;
      next_future := S (next_future w);
      executor_queue := executor_queue w ++ [(fut, fn)];
      ioloop_callbacks := ioloop_callbacks w |}).

(** [loop.add_future(future, callback)] *)
Definition loop_add_future (fut : Future) (cb : Callback) (w : World) : World :=
  {| progress := progress w; result := result w;
     next_future := next_future w;
     executor_queue := executor_queue w;
     ioloop_callbacks := ioloop_callbacks w ++ [(fut, cb)] |}.

(** [for _ in range(n): body] *)
Definition for_range (n : Z) (body : World -> World) (w : World) : World :=
  Nat.iter (Z.to_nat n) body w.

(** The body of the loop of [do_calc]. *)
Definition do_calc_loop_body (w : World) : World :=
  let (future, w1) := executor_submit blocking_task w in
  loop_add_future future update w1.

(** [do_calc(self, num_tasks=10)]; its first statement rebinds
    [num_tasks] to 20. *)
Definition do_calc (num_tasks : Z) (w : World) : pyresult World :=
  let num_tasks := 20 in
  rbind (set_num_tasks num_tasks (progress w)) (fun p =>
  Ok (for_range num_tasks do_calc_loop_body (with_progress p w))).

(** [_blocking_task] returns 5 after its sleep (time is not part of the
    state). *)
Definition _blocking_task : Z := 5.

(** [with progress.increment(): body] on the world. *)
Definition increment {A : Type} (body : World -> pyresult (A * World))
  (w : World) : pyresult (A * World) :=
  let w1 := with_progress (increment_enter (progress w)) w in
  match body w1 with
  | Ok (a, w2) => Ok (a, with_progress (increment_exit (progress w2)) w2)
  | Raise e => Raise e
  end.

(** [_update], decorated with [progress.increment()]; [number] is
    [future.result()]. *)
Definition _update (number : Z) : World -> pyresult (Datatypes.unit * World) :=
  increment (fun w => Ok (tt, with_result (result w + number) w)).

End AsyncTasks.

(** ** examples/image_classifier.py *)

Module ImageClassifier.
Local Open Scope string_scope.
Local Open Scope Z_scope.

(** A callable imported from a library, identified by the name under
    which the module imports it.  Two callables are the same Python
    object exactly when they have the same name. *)
Definition Callable : Type := string.

(** [class KerasApplication(NamedTuple)] *)
Record KerasApplication : Type := {
  name : string;
  keras_application : Callable;
  preprocess_input_func : Callable;
  decode_predictions_func : Callable;
  load_img_func : Callable;
  img_to_array_func : Callable;
  input_shape : Z * Z;
  url : string
}.

(** Defaults of the two last fields. *)
Definition default_input_shape : Z * Z := (224, 224).
Definition default_url : string := "https://keras.io/applications/".

(** Equality of named tuples, field by field; it is the key equality of
    [lru_cache]. *)
Definition KerasApplication_eqb (a b : KerasApplication) : bool :=
  String.eqb (name a) (name b)
  && String.eqb (keras_application a) (keras_application b)
  && String.eqb (preprocess_input_func a) (preprocess_input_func b)
  && String.eqb (decode_predictions_func a) (decode_predictions_func b)
  && String.eqb (load_img_func a) (load_img_func b)
  && String.eqb (img_to_array_func a) (img_to_array_func b)
  && Z.eqb (fst (input_shape a)) (fst (input_shape b))
  && Z.eqb (snd (input_shape a)) (snd (input_shape b))
  && String.eqb (url a) (url b).

(** The list assigned to the global [KERAS_APPLICATIONS] by
    [config_keras_applications]. *)
Definition keras_applications_table : list KerasApplication :=
  [ {| name := "DenseNet121";
       keras_application := "densenet.DenseNet121";
       preprocess_input_func := "densenet.preprocess_input";
       decode_predictions_func := "densenet.decode_predictions";
       load_img_func := "load_img";
       img_to_array_func := "img_to_array";
       input_shape := default_input_shape;
       url := "https://keras.io/applications/#densenet" |};
    {| name := "InceptionV3";
       keras_application := "inception_v3.InceptionV3";
       preprocess_input_func := "inception_v3.preprocess_input";
       decode_predictions_func := "inception_v3.decode_predictions";
       load_img_func := "load_img";
       img_to_array_func := "img_to_array";
       input_shape := (299, 299);
       url := "https://keras.io/applications/#inceptionv3" |};
    {| name := "MobileNetV2";
       keras_application := "mobilenet_v2.MobileNetV2";
       preprocess_input_func := "mobilenet_v2.preprocess_input";
       decode_predictions_func := "mobilenet_v2.decode_predictions";
       load_img_func := "load_img";
       img_to_array_func := "img_to_array";
       input_shape := default_input_shape;
       url := "https://keras.io/applications/#mobilenet" |};
    {| name := "NASNetMobile";
       keras_application := "nasnet.NASNetMobile";
       preprocess_input_func := "nasnet.preprocess_input";
       decode_predictions_func := "nasnet.decode_predictions";
       load_img_func := "load_img";
       img_to_array_func := "img_to_array";
       input_shape := default_input_shape;
       url := "https://keras.io/applications/#nasnet" |};
    {| name := "NASNetLarge";
       keras_application := "nasnet.NASNetLarge";
       preprocess_input_func := "nasnet.preprocess_input";
       decode_predictions_func := "nasnet.decode_predictions";
       load_img_func := "load_img";
       img_to_array_func := "img_to_array";
       input_shape := (331, 331);
       url := "https://keras.io/applications/#nasnet" |};
    {| name := "ResNet50";
       keras_application := "resnet.ResNet50";
       preprocess_input_func := "resnet.preprocess_input";
       decode_predictions_func := "resnet.decode_predictions";
       load_img_func := "load_img";
       img_to_array_func := "img_to_array";
       input_shape := default_input_shape;
       url := "https://keras.io/applications/#resnet" |};
    {| name := "VGG19";
       keras_application := "vgg19.VGG19";
       preprocess_input_func := "vgg19.preprocess_input";
       decode_predictions_func := "vgg19.decode_predictions";
       load_img_func := "load_img";
       img_to_array_func := "img_to_array";
       input_shape := default_input_shape;
       url := "https://keras.io/applications/#vgg19" |};
    {| name := "Xception";
       keras_application := "xception.Xception";
       preprocess_input_func := "xception.preprocess_input";
       decode_predictions_func := "xception.decode_predictions";
       load_img_func := "load_img";
       img_to_array_func := "img_to_array";
       input_shape := (299, 299);
       url := "https://keras.io/applications/#inceptionv3" |} ].

Definition DEFAULT_KERAS_APPLICATION_INDEX : nat := 2.

(** The libraries the module calls into: PIL, numpy, pandas and Keras.
    Their values are opaque to this development.  [Image_open] is [None]
    on bytes in which PIL identifies no image: [Image.open] raises
    [UnidentifiedImageError] there. *)
Class Externals : Type := {
  PILImage : Type;
  ndarray : Type;
  KerasModel : Type;
  number : Type;                                    (* a probability *)
  Image_open : list Byte.byte -> option PILImage;   (* Image.open(io.BytesIO(b)) *)
  Image_resize : PILImage -> Z * Z -> PILImage;     (* image.resize(shape) *)
  call_load_img : Callable -> string -> Z * Z -> PILImage;
  call_img_to_array : Callable -> PILImage -> ndarray;
  np_expand_dims : ndarray -> Z -> ndarray;
  call_preprocess_input : Callable -> ndarray -> ndarray;
  call_keras_application : Callable -> string -> KerasModel;
  model_predict : KerasModel -> ndarray -> ndarray;
  call_decode_predictions :
    Callable -> ndarray -> list (list (string * string * number));
  Series_round : number -> Z -> number;             (* .round(decimals) *)
  number_mul : number -> Z -> number                (* x * 100 *)
}.

Section WithExternals.
Context {ext : Externals}.

(** A 3-tuple [(id, prediction, probability)]. *)
Definition Prediction : Type := (string * string * number)%type.

(** Calls into the libraries and assignments to [top_predictions], in
    the order the program performs them. *)
Inductive Event : Type :=
| ReportProgress (message : string) (value : Z)
| CallKerasApplication (f : Callable) (weights : string)
| Resize (image : PILImage) (shape : Z * Z)
| ImgToArray (f : Callable) (image : PILImage)
| ExpandDims (a : ndarray) (axis : Z)
| PreprocessInput (f : Callable) (a : ndarray)
| Predict (m : KerasModel) (x : ndarray)
| DecodePredictions (f : Callable) (predictions : ndarray)
| ImageOpen (b : list Byte.byte)
| SetTopPredictions (v : option (list Prediction)).

(** [class ImageClassifierApp(param.Parameterized)], with the two
    attributes of [param.model] that [__init__] assigns. *)
Record ImageClassifierApp : Type := {
  model : option KerasApplication;
  image_file : option (list Byte.byte);
  top_predictions : option (list Prediction);
  progress_value : Z;
  progress_message : string;
  param_model_default : option KerasApplication;
  param_model_objects : list KerasApplication
}.

Definition ImageClassifierApp_new : ImageClassifierApp :=
  {| model := None; image_file := None; top_predictions := None;
     progress_value := 0; progress_message := "";
     param_model_default := None; param_model_objects := [] |}.

(** [objects_is_KERAS_APPLICATIONS] records that [param.model.objects]
    and the global [KERAS_APPLICATIONS] are one and the same list object,
    as they are after [self.param.model.objects = KERAS_APPLICATIONS]: an
    append to one is then an append to the other. *)
Record World : Type := {
  KERAS_APPLICATIONS : list KerasApplication;          (* module global *)
  objects_is_KERAS_APPLICATIONS : bool;
  get_model_cache : list (KerasApplication * KerasModel);
                                   (* lru_cache(2), most recent first *)
  app : ImageClassifierApp;
  log : list Event
}.

Definition World_new : World :=
  {| KERAS_APPLICATIONS := []; objects_is_KERAS_APPLICATIONS := false;
     get_model_cache := [];
     app := ImageClassifierApp_new; log := [] |}.

(** State and exceptions: the world survives a raise. *)
Definition M (A : Type) : Type := World -> pyresult A * World.

Definition ret {A : Type} (a : A) : M A := fun w => (Ok a, w).

Definition raise {A : Type} (e : exn) : M A := fun w => (Raise e, w).

Definition bind {A B : Type} (m : M A) (k : A -> M B) : M B :=
  fun w =>
    match m w with
    | (Ok a, w') => k a w'
    | (Raise e, w') => (Raise e, w')
    end.

End WithExternals.

Declare Scope py_scope.
Delimit Scope py_scope with py.
Notation "x <- c1 ;; c2" := (bind c1 (fun x => c2))
  (at level 61, c1 at next level, right associativity) : py_scope.
Notation "c1 ;; c2" := (bind c1 (fun _ => c2))
  (at level 61, right associativity) : py_scope.

Section WithExternals.
Context {ext : Externals}.
Local Open Scope py_scope.

Definition emit (e : Event) : M unit :=
  fun w => (Ok tt,
            {| KERAS_APPLICATIONS := KERAS_APPLICATIONS w;
               objects_is_KERAS_APPLICATIONS := objects_is_KERAS_APPLICATIONS w;
               get_model_cache := get_model_cache w;
               app := app w; log := log w ++ [e] |}).

Definition get_app : M ImageClassifierApp := fun w => (Ok (app w), w).

Definition modify_app (f : ImageClassifierApp -> ImageClassifierApp) : M unit :=
  fun w => (Ok tt,
            {| KERAS_APPLICATIONS := KERAS_APPLICATIONS w;
               objects_is_KERAS_APPLICATIONS := objects_is_KERAS_APPLICATIONS w;
               get_model_cache := get_model_cache w;
               app := f (app w); log := log w |}).

Definition set_cache (c : list (KerasApplication * KerasModel)) : M unit :=
  fun w => (Ok tt,
            {| KERAS_APPLICATIONS := KERAS_APPLICATIONS w;
               objects_is_KERAS_APPLICATIONS := objects_is_KERAS_APPLICATIONS w;
               get_model_cache := c;
               app := app w; log := log w |}).

(** [KERAS_APPLICATIONS = l] binds the global to a new list: whatever
    shared the old one does not share this one. *)
Definition set_KERAS_APPLICATIONS (l : list KerasApplication) : M unit :=
  fun w => (Ok tt,
            {| KERAS_APPLICATIONS := l;
               objects_is_KERAS_APPLICATIONS := false;
               get_model_cache := get_model_cache w;
               app := app w; log := log w |}).

Definition with_param_model_objects (l : list KerasApplication)
  (a : ImageClassifierApp) : ImageClassifierApp :=
  {| model := model a; image_file := image_file a;
     top_predictions := top_predictions a;
     progress_value := progress_value a;
     progress_message := progress_message a;
     param_model_default := param_model_default a;
     param_model_objects := l |}.

(** A new instance: its [param.model.objects] is a list of its own. *)
Definition new_instance : M unit :=
  fun w => (Ok tt,
            {| KERAS_APPLICATIONS := KERAS_APPLICATIONS w;
               objects_is_KERAS_APPLICATIONS := false;
               get_model_cache := get_model_cache w;
               app := ImageClassifierApp_new; log := log w |}).

(** [self.param.model.objects = KERAS_APPLICATIONS]: from here on the two
    names refer to one list. *)
Definition set_param_model_objects_global : M unit :=
  fun w => (Ok tt,
            {| KERAS_APPLICATIONS := KERAS_APPLICATIONS w;
               objects_is_KERAS_APPLICATIONS := true;
               get_model_cache := get_model_cache w;
               app := with_param_model_objects (KERAS_APPLICATIONS w) (app w);
               log := log w |}).

(** [self.param.model.objects.append(v)], seen through every name of
    that list. *)
Definition param_model_objects_append (v : KerasApplication) : M unit :=
  fun w => (Ok tt,
            {| KERAS_APPLICATIONS :=
                 if objects_is_KERAS_APPLICATIONS w
                 then KERAS_APPLICATIONS w ++ [v]
                 else KERAS_APPLICATIONS w;
               objects_is_KERAS_APPLICATIONS := objects_is_KERAS_APPLICATIONS w;
               get_model_cache := get_model_cache w;
               app := with_param_model_objects
                        (param_model_objects (app w) ++ [v]) (app w);
               log := log w |}).

(** [l[i]] for a constant index [i >= 0]. *)
Definition list_get {A : Type} (l : list A) (i : nat) : M A :=
  match nth_error l i with
  | Some x => ret x
  | None => raise IndexError
  end.

(** *** KerasApplication *)

Definition load_image (self : KerasApplication) (image_path : string) : PILImage :=
  call_load_img (load_img_func self) image_path (input_shape self).

Definition to_input_shape (self : KerasApplication) (image : PILImage) : M PILImage :=
  emit (Resize image (input_shape self)) ;;
  ret (Image_resize image (input_shape self)).

Definition cache_find (self : KerasApplication)
  (c : list (KerasApplication * KerasModel)) : option KerasModel :=
  option_map snd (find (fun e => KerasApplication_eqb (fst e) self) c).

Definition cache_remove (self : KerasApplication)
  (c : list (KerasApplication * KerasModel)) :
  list (KerasApplication * KerasModel) :=
  filter (fun e => negb (KerasApplication_eqb (fst e) self)) c.

(** [get_model], wrapped in [lru_cache(2)]: a hit returns the stored
    model and makes the entry the most recent one; a miss calls
    [self.keras_application(weights="imagenet")], stores the model and
    keeps the two most recent entries. *)
Definition get_model (self : KerasApplication) : M KerasModel :=
  fun w =>
    match cache_find self (get_model_cache w) with
    | Some m =>
        (set_cache ((self, m) :: cache_remove self (get_model_cache w)) ;;
         ret m) w
    | None =>
        (emit (CallKerasApplication (keras_application self) "imagenet") ;;
         let m := call_keras_application (keras_application self) "imagenet" in
         set_cache (firstn 2 ((self, m) :: get_model_cache w)) ;;
         ret m) w
    end.

Definition preprocess_input (self : KerasApplication) (image : PILImage) : M ndarray :=
  image <- to_input_shape self image ;;
  emit (ImgToArray (img_to_array_func self) image) ;;
  let image := call_img_to_array (img_to_array_func self) image in
  emit (ExpandDims image 0) ;;
  let image := np_expand_dims image 0 in
  emit (PreprocessInput (preprocess_input_func self) image) ;;
  let image := call_preprocess_input (preprocess_input_func self) image in
  ret image.

(** A progress callback: what it does to the app besides being called.
    [print] does nothing to it. *)
Definition ReportFunc : Type :=
  string -> Z -> ImageClassifierApp -> ImageClassifierApp.

Definition print : ReportFunc := fun _ _ a => a.

Definition call_report (report_progress_func : ReportFunc)
  (message : string) (value : Z) : M unit :=
  emit (ReportProgress message value) ;;
  modify_app (report_progress_func message value).

Definition get_top_predictions (self : KerasApplication) (image : PILImage)
  (report_progress_func : ReportFunc) : M (list Prediction) :=
  call_report report_progress_func
    ("Loading " ++ name self
     ++ " model ... (The first time this is done it may take several minutes)")
    10 ;;
  model <- get_model self ;;
  call_report report_progress_func "Processing image ... " 67 ;;
  image <- preprocess_input self image ;;
  call_report report_progress_func
    ("Classifying image with '" ++ name self ++ "'... ") 85 ;;
  emit (Predict model image) ;;
  let predictions := model_predict model image in
  emit (DecodePredictions (decode_predictions_func self) predictions) ;;
  let top_predictions :=
    call_decode_predictions (decode_predictions_func self) predictions in
  call_report report_progress_func "" 0 ;;
  list_get top_predictions 0.

(** *** The chart *)

(** A data frame with the columns ["id"; "prediction"; "probability"];
    a row is one prediction. *)
Record DataFrame : Type := {
  columns : list string;
  rows : list Prediction
}.

Record Scale : Type := { domain : Z * Z }.

Record X : Type := { x_shorthand : string; scale : Scale }.

Record EncodingSortField : Type := { field : string; order : string }.

Record Y : Type := { y_shorthand : string; sort : EncodingSortField }.

Record Chart : Type := {
  data : DataFrame;
  mark : string;
  encoding_x : X;
  encoding_y : Y
}.

Definition to_predictions_chart (predictions : list Prediction) : Chart :=
  let dataframe :=
    {| columns := ["id"; "prediction"; "probability"]; rows := predictions |} in
  let dataframe :=
    {| columns := columns dataframe;
       rows := map (fun '(id, prediction, probability) =>
                      (id, prediction,
                       number_mul (Series_round probability 2) 100))
                   (rows dataframe) |} in
  {| data := dataframe;
     mark := "bar";
     encoding_x := {| x_shorthand := "probability:Q";
                      scale := {| domain := (0, 100) |} |};
     encoding_y := {| y_shorthand := "prediction:N";
                      sort := {| field := "probability";
                                 order := "descending" |} |} |}.

(** *** ImageClassifierApp *)

Definition config_keras_applications : M unit :=
  fun w =>
    match KERAS_APPLICATIONS w with
    | _ :: _ => ret tt w
    | [] => set_KERAS_APPLICATIONS keras_applications_table w
    end.

(** Truth values of the three parameters. *)
Definition image_file_truthy (a : ImageClassifierApp) : bool :=
  match image_file a with
  | Some (_ :: _) => true
  | _ => false
  end.

Definition model_truthy (a : ImageClassifierApp) : bool :=
  match model a with
  | Some _ => true
  | None => false
  end.

Definition top_predictions_truthy (a : ImageClassifierApp) : bool :=
  match top_predictions a with
  | Some (_ :: _) => true
  | _ => false
  end.

Definition with_top_predictions (v : option (list Prediction))
  (a : ImageClassifierApp) : ImageClassifierApp :=
  {| model := model a; image_file := image_file a; top_predictions := v;
     progress_value := progress_value a;
     progress_message := progress_message a;
     param_model_default := param_model_default a;
     param_model_objects := param_model_objects a |}.

(** [self.top_predictions = v] *)
Definition set_top_predictions_param (v : option (list Prediction)) : M unit :=
  emit (SetTopPredictions v) ;;
  modify_app (with_top_predictions v).

(** [report_progress]: the message first, then the value. *)
Definition report_progress : ReportFunc :=
  fun message value a =>
    let a :=
      {| model := model a; image_file := image_file a;
         top_predictions := top_predictions a;
         progress_value := progress_value a;
         progress_message := message;
         param_model_default := param_model_default a;
         param_model_objects := param_model_objects a |} in
    {| model := model a; image_file := image_file a;
       top_predictions := top_predictions a;
       progress_value := value;
       progress_message := progress_message a;
       param_model_default := param_model_default a;
       param_model_objects := param_model_objects a |}.

Definition set_top_predictions : M unit :=
  set_top_predictions_param None ;;
  a <- get_app ;;
  match image_file a, model a with
  | Some (b :: bytes), Some m =>
      call_report report_progress "Prediction Started" 1 ;;
      emit (ImageOpen (b :: bytes)) ;;
      match Image_open (b :: bytes) with
      | None => raise UnidentifiedImageError
      | Some pil_image =>
          top <- get_top_predictions m pil_image report_progress ;;
          set_top_predictions_param (Some top)
      end
  | _, _ => ret tt
  end.

(** [Comparator.is_equal] of the parameter framework on the values of
    [image_file]: bytes and [None] are compared with [==]. *)
Fixpoint bytes_eqb (x y : list Byte.byte) : bool :=
  match x, y with
  | [], [] => true
  | a :: x', b :: y' => Byte.eqb a b && bytes_eqb x' y'
  | _, _ => false
  end.

Definition is_equal (old new : option (list Byte.byte)) : bool :=
  match old, new with
  | None, None => true
  | Some x, Some y => bytes_eqb x y
  | _, _ => false
  end.

Definition with_image_file (v : option (list Byte.byte))
  (a : ImageClassifierApp) : ImageClassifierApp :=
  {| model := model a; image_file := v;
     top_predictions := top_predictions a;
     progress_value := progress_value a;
     progress_message := progress_message a;
     param_model_default := param_model_default a;
     param_model_objects := param_model_objects a |}.

Definition with_model (v : option KerasApplication)
  (a : ImageClassifierApp) : ImageClassifierApp :=
  {| model := v; image_file := image_file a;
     top_predictions := top_predictions a;
     progress_value := progress_value a;
     progress_message := progress_message a;
     param_model_default := param_model_default a;
     param_model_objects := param_model_objects a |}.

(** Assignments to the two watched parameters.  The framework stores
    the value and then calls the watcher [set_top_predictions], unless
    its comparison finds the old and the new value equal.

    [self.image_file = v]: the values are bytes or [None], and an
    assignment of the value already held calls nothing. *)
Definition set_image_file (v : option (list Byte.byte)) : M unit :=
  a <- get_app ;;
  let old := image_file a in
  modify_app (with_image_file v) ;;
  if is_equal old v then ret tt else set_top_predictions.

(** [self.model = v].  [model] is declared as [param.ObjectSelector()],
    without objects, so it does not check a value against its objects:
    a value that is not among them is appended to the objects list.
    The values are named tuples that hold functions, which the
    framework's comparison never finds equal, so the watcher is called
    on every assignment. *)
Definition set_model (v : KerasApplication) : M unit :=
  a <- get_app ;;
  (if existsb (KerasApplication_eqb v) (param_model_objects a)
   then ret tt
   else param_model_objects_append v) ;;
  modify_app (with_model (Some v)) ;;
  set_top_predictions.

(** [ImageClassifierApp()] *)
Definition ImageClassifierApp_init : M unit :=
  new_instance ;;
  config_keras_applications ;;
  apps <- (fun w => (Ok (KERAS_APPLICATIONS w), w)) ;;
  default <- list_get apps DEFAULT_KERAS_APPLICATION_INDEX ;;
  modify_app (fun a =>
    {| model := model a; image_file := image_file a;
       top_predictions := top_predictions a;
       progress_value := progress_value a;
       progress_message := progress_message a;
       param_model_default := Some default;
       param_model_objects := param_model_objects a |}) ;;
  set_param_model_objects_global ;;
  apps <- (fun w => (Ok (KERAS_APPLICATIONS w), w)) ;;
  selected <- list_get apps DEFAULT_KERAS_APPLICATION_INDEX ;;
  set_model selected.

(** What a view is made of. *)
Inductive ViewMethod : Type :=
| main_prediction_view
| predictions_chart_view.

#[local] Unset Elimination Schemes.
Inductive Viewable : Type :=
| Column (objects : list Viewable) (sizing_mode : string)
| Markdown (text : string)
| Progress (value : Z) (width : Z)
| Str (object : string)
| HTML
| ParamMethod (method : ViewMethod).
#[local] Set Elimination Schemes.

Definition predictions_view (self : ImageClassifierApp) : Viewable :=
  if negb (progress_value self =? 0) then
    Column [ Markdown "## Prediction";
             Progress (progress_value self) 200;
             Str (progress_message self) ]
           "stretch_width"
  else if top_predictions_truthy self then
    Column [ Markdown "## Prediction";
             ParamMethod main_prediction_view;
             Markdown "## Alternative Predictions";
             ParamMethod predictions_chart_view ]
           "stretch_width"
  else HTML.

(** *** The steps of a classification, written out

    These follow the description of [get_top_predictions] step by step
    and are what the program's runs are compared with. *)

(** The image after resizing, conversion to an array, the added batch
    dimension and the application's preprocessing. *)
Definition preprocessed (self : KerasApplication) (image : PILImage) : ndarray :=
  call_preprocess_input (preprocess_input_func self)
    (np_expand_dims
       (call_img_to_array (img_to_array_func self)
          (Image_resize image (input_shape self)))
       0).

Definition preprocess_steps (self : KerasApplication) (image : PILImage) : list Event :=
  [ Resize image (input_shape self);
    ImgToArray (img_to_array_func self) (Image_resize image (input_shape self));
    ExpandDims (call_img_to_array (img_to_array_func self)
                  (Image_resize image (input_shape self))) 0;
    PreprocessInput (preprocess_input_func self)
      (np_expand_dims
         (call_img_to_array (img_to_array_func self)
            (Image_resize image (input_shape self))) 0) ].

(** The model [get_model] hands out in a world: the cached one, or a
    new one with the ImageNet weights. *)
Definition model_in (self : KerasApplication) (w : World) : KerasModel :=
  match cache_find self (get_model_cache w) with
  | Some m => m
  | None => call_keras_application (keras_application self) "imagenet"
  end.

(** The library calls [get_model] makes in a world. *)
Definition get_model_steps (self : KerasApplication) (w : World) : list Event :=
  match cache_find self (get_model_cache w) with
  | Some _ => []
  | None => [CallKerasApplication (keras_application self) "imagenet"]
  end.

Definition cache_after_get_model (self : KerasApplication) (w : World) :
  list (KerasApplication * KerasModel) :=
  match cache_find self (get_model_cache w) with
  | Some m => (self, m) :: cache_remove self (get_model_cache w)
  | None =>
      firstn 2 ((self, call_keras_application (keras_application self) "imagenet")
                :: get_model_cache w)
  end.

(** The decoded predictions for the image, one list per image of the
    batch. *)
Definition decoded (self : KerasApplication) (m : KerasModel) (image : PILImage) :
  list (list Prediction) :=
  call_decode_predictions (decode_predictions_func self)
    (model_predict m (preprocessed self image)).

(** All events of one run of [get_top_predictions], in order. *)
Definition classification_steps (self : KerasApplication) (image : PILImage)
  (w : World) : list Event :=
  [ ReportProgress
      ("Loading " ++ name self
       ++ " model ... (The first time this is done it may take several minutes)")
      10 ]
  ++ get_model_steps self w
  ++ [ ReportProgress "Processing image ... " 67 ]
  ++ preprocess_steps self image
  ++ [ ReportProgress ("Classifying image with '" ++ name self ++ "'... ") 85;
       Predict (model_in self w) (preprocessed self image);
       DecodePredictions (decode_predictions_func self)
         (model_predict (model_in self w) (preprocessed self image));
       ReportProgress "" 0 ].

(** The events that are not progress reports. *)
Definition is_report (e : Event) : bool :=
  match e with
  | ReportProgress _ _ => true
  | _ => false
  end.

Definition computation_steps (l : list Event) : list Event :=
  filter (fun e => negb (is_report e)) l.

(** The events that touch a model. *)
Definition is_model_event (e : Event) : bool :=
  match e with
  | CallKerasApplication _ _ | Predict _ _ => true
  | _ => false
  end.

(** Every cached model is the one its application builds with the
    ImageNet weights. *)
Definition cache_pristine (w : World) : Prop :=
  Forall (fun e => snd e
                   = call_keras_application (keras_application (fst e)) "imagenet")
         (get_model_cache w).

(** The name of a prediction [(id, prediction, probability)]. *)
Definition prediction_name (r : Prediction) : string := snd (fst r).

(** *** The watcher, as described

    What one run of the watcher from the world [w] is to look like, [out]
    being the result of the run and the world it leaves: the first thing
    done is [top_predictions = None]; with [image_file] or [model] falsy
    nothing else is done; with both set, the file is opened, and
    - a file that is no image ends the run with the exception of
      [Image.open], before any classification, [top_predictions] being
      [None] and [progress_value] 1;
    - an image is classified by the selected model and the first of the
      decoded lists is stored ([IndexError] if there is none). *)
Definition watcher_outcome (w : World) (out : pyresult unit * World) : Prop :=
  let w' := snd out in
  (exists rest, log w' = (log w ++ SetTopPredictions None :: rest)%list)
  /\ (image_file_truthy (app w) && model_truthy (app w) = false ->
      fst out = Ok tt
      /\ top_predictions (app w') = None
      /\ log w' = (log w ++ [SetTopPredictions None])%list
      /\ get_model_cache w' = get_model_cache w)
  /\ (forall b bytes m,
        image_file (app w) = Some (b :: bytes) -> model (app w) = Some m ->
        match Image_open (b :: bytes) with
        | None =>
            fst out = Raise UnidentifiedImageError
            /\ top_predictions (app w') = None
            /\ progress_value (app w') = 1
            /\ log w'
               = (log w
                  ++ [ SetTopPredictions None;
                       ReportProgress "Prediction Started" 1;
                       ImageOpen (b :: bytes) ])%list
            /\ get_model_cache w' = get_model_cache w
        | Some image =>
            let outcome := decoded m (model_in m w) image in
            fst out
            = match outcome with [] => Raise IndexError | _ :: _ => Ok tt end
            /\ top_predictions (app w')
               = match outcome with [] => None | top :: _ => Some top end
            /\ log w'
               = (log w
                  ++ [ SetTopPredictions None;
                       ReportProgress "Prediction Started" 1;
                       ImageOpen (b :: bytes) ]
                  ++ classification_steps m image w
                  ++ match outcome with
                     | [] => []
                     | top :: _ => [SetTopPredictions (Some top)]
                     end)%list
        end).

End WithExternals.

(** A small instance of the libraries, for running the definitions:
    images and arrays are numbers, a model is the name of its
    constructor, probabilities are percentages.  Bytes are identified
    as an image when they begin as a PNG file does, with the signature
    and the head of the IHDR chunk. *)
Definition png_header : list Byte.byte :=
  [ Byte.x89; Byte.x50; Byte.x4e; Byte.x47; Byte.x0d; Byte.x0a; Byte.x1a; Byte.x0a;
    Byte.x00; Byte.x00; Byte.x00; Byte.x0d; Byte.x49; Byte.x48; Byte.x44; Byte.x52 ].

Fixpoint starts_with (prefix b : list Byte.byte) : bool :=
  match prefix, b with
  | [], _ => true
  | p :: prefix', x :: b' => Byte.eqb p x && starts_with prefix' b'
  | _ :: _, [] => false
  end.

Definition example_externals : Externals :=
  {| PILImage := Z;
     ndarray := Z;
     KerasModel := string;
     number := Z;
     Image_open := fun b =>
       if starts_with png_header b then Some (Z.of_nat (List.length b))
       else None;
     Image_resize := fun image shape => image + fst shape;
     call_load_img := fun _ _ shape => fst shape;
     call_img_to_array := fun _ image => image;
     np_expand_dims := fun a axis => a + axis;
     call_preprocess_input := fun _ a => a;
     call_keras_application := fun f weights => (f ++ ":" ++ weights)%string;
     model_predict := fun _ x => x;
     call_decode_predictions := fun _ _ =>
       [ [ ("n02123045", "tabby", 61);
           ("n02123159", "tiger_cat", 25);
           ("n02124075", "Egyptian_cat", 9) ] ];
     Series_round := fun x _ => x;
     number_mul := fun x k => x * k |}.

(** A PNG file of one red pixel, and a file that is no image: the
    bytes of [hello]. *)
Definition example_png : list Byte.byte :=
  [ Byte.x89; Byte.x50; Byte.x4e; Byte.x47; Byte.x0d; Byte.x0a; Byte.x1a; Byte.x0a;
    Byte.x00; Byte.x00; Byte.x00; Byte.x0d; Byte.x49; Byte.x48; Byte.x44; Byte.x52;
    Byte.x00; Byte.x00; Byte.x00; Byte.x01; Byte.x00; Byte.x00; Byte.x00; Byte.x01;
    Byte.x08; Byte.x02; Byte.x00; Byte.x00; Byte.x00; Byte.x90; Byte.x77; Byte.x53;
    Byte.xde; Byte.x00; Byte.x00; Byte.x00; Byte.x0c; Byte.x49; Byte.x44; Byte.x41;
    Byte.x54; Byte.x78; Byte.x9c; Byte.x63; Byte.xf8; Byte.xcf; Byte.xc0; Byte.x00;
    Byte.x00; Byte.x03; Byte.x01; Byte.x01; Byte.x00; Byte.xc9; Byte.xfe; Byte.x92;
    Byte.xef; Byte.x00; Byte.x00; Byte.x00; Byte.x00; Byte.x49; Byte.x45; Byte.x4e;
    Byte.x44; Byte.xae; Byte.x42; Byte.x60; Byte.x82 ].

Definition example_text : list Byte.byte :=
  [ Byte.x68; Byte.x65; Byte.x6c; Byte.x6c; Byte.x6f ].

Definition example_world : World (ext := example_externals) :=
  {| KERAS_APPLICATIONS := keras_applications_table;
     objects_is_KERAS_APPLICATIONS := true;
     get_model_cache := [];
     app := {| model := nth_error keras_applications_table 2;
               image_file := Some example_png;
               top_predictions := None;
               progress_value := 0; progress_message := "";
               param_model_default := nth_error keras_applications_table 2;
               param_model_objects := keras_applications_table |};
     log := [] |}.

End ImageClassifier.

(** ** Runs of the background-task app *)

Module AsyncTasksRuns.
Import AsyncTasks.
Local Open Scope Z_scope.

(** The world once the module is loaded: [progress = ProgressExtMod()],
    [result] at its default 0, nothing submitted yet. *)
Definition World_new : World :=
  {| progress := ProgressExtMod_new; result := 0; next_future := 0;
     executor_queue := []; ioloop_callbacks := [] |}.

Definition with_callbacks (cbs : list (Future * Callback)) (w : World) : World :=
  {| progress := progress w; result := result w;
     next_future := next_future w;
     executor_queue := executor_queue w;
     ioloop_callbacks := cbs |}.

(** The list without its [i]-th element. *)
Fixpoint remove_nth {A : Type} (i : nat) (l : list A) : list A :=
  match i, l with
  | _, [] => []
  | O, _ :: l' => l'
  | S i', x :: l' => x :: remove_nth i' l'
  end.

(** The IOLoop runs the [i]-th callback still registered, once the
    future it waits for is done: [_update(future)], where
    [future.result()] is what [_blocking_task] returned.  Nothing
    happens when there is no such callback. *)
Definition fire (i : nat) (w : World) : pyresult World :=
  match nth_error (ioloop_callbacks w) i with
  | None => Ok w
  | Some (_, update) =>
      rbind (_update _blocking_task
               (with_callbacks (remove_nth i (ioloop_callbacks w)) w))
            (fun r => Ok (snd r))
  end.

(** What can happen to the app: the START button ([do_stuff], which
    calls [do_calc]) and the completion of a submitted task. *)
Inductive Op : Type :=
| Start (num_tasks : Z)
| Done (i : nat).

Definition step (o : Op) (w : World) : pyresult World :=
  match o with
  | Start num_tasks => do_calc num_tasks w
  | Done i => fire i w
  end.

Fixpoint run (ops : list Op) (w : World) : pyresult World :=
  match ops with
  | [] => Ok w
  | o :: ops' => rbind (step o w) (run ops')
  end.

(** How often START was pressed in a run. *)
Definition is_start (o : Op) : bool :=
  match o with
  | Start _ => true
  | Done _ => false
  end.

Definition starts (ops : list Op) : Z :=
  Z.of_nat (List.length (filter is_start ops)).

(** The callbacks that have not run yet. *)
Definition pending (w : World) : Z :=
  Z.of_nat (List.length (ioloop_callbacks w)).

(** What a run keeps true, with [s] presses of START so far: every
    callback still pending belongs to a submitted task, [result] is 5
    for each callback that has run, the counter is their number modulo
    20, and [num_tasks] is 20 as soon as START was pressed. *)
Definition run_invariant (s : Z) (w : World) : Prop :=
  0 <= pending w <= 20 * s
  /\ result w = 5 * (20 * s - pending w)
  /\ completed (progress w) = (20 * s - pending w) mod 20
  /\ ((s = 0 /\ num_tasks (progress w) = 100)
      \/ (0 < s /\ num_tasks (progress w) = 20)).

End AsyncTasksRuns.

(** ** The views of the image classifier *)

From Stdlib Require Import Ascii.

Module ImageClassifierViews.
Import ImageClassifier.
Local Open Scope char_scope.
Local Open Scope string_scope.

(** [str.replace("_", " ")] and [str.capitalize()] on strings of ASCII
    characters, which the ImageNet class names are. *)
Definition is_ascii_lower (c : Ascii.ascii) : bool :=
  (N.leb 97 (Ascii.N_of_ascii c) && N.leb (Ascii.N_of_ascii c) 122)%bool.

Definition is_ascii_upper (c : Ascii.ascii) : bool :=
  (N.leb 65 (Ascii.N_of_ascii c) && N.leb (Ascii.N_of_ascii c) 90)%bool.

Definition ascii_upper (c : Ascii.ascii) : Ascii.ascii :=
  if is_ascii_lower c then Ascii.ascii_of_N (Ascii.N_of_ascii c - 32) else c.

Definition ascii_lower (c : Ascii.ascii) : Ascii.ascii :=
  if is_ascii_upper c then Ascii.ascii_of_N (Ascii.N_of_ascii c + 32) else c.

Fixpoint string_map (f : Ascii.ascii -> Ascii.ascii) (s : string) : string :=
  match s with
  | EmptyString => EmptyString
  | String c s' => String (f c) (string_map f s')
  end.

Definition str_replace_underscore (s : string) : string :=
  string_map (fun c => if Ascii.eqb c "_"%char then " "%char else c) s.

Definition str_capitalize (s : string) : string :=
  match s with
  | EmptyString => EmptyString
  | String c s' => String (ascii_upper c) (string_map ascii_lower s')
  end.

Section WithExternals.
Context {ext : Externals}.

(** [KerasApplication.to_main_prediction_string] *)
Definition to_main_prediction_string (predictions : list Prediction) :
  pyresult string :=
  match predictions with
  | [] => Raise IndexError
  | (_, prediction, _) :: _ =>
      let prediction_text := str_capitalize (str_replace_underscore prediction) in
      Ok ("It's a **" ++ prediction_text ++ "**")
  end.

(** The panes the views return. *)
Inductive Pane : Type :=
| PaneMarkdown (object : string)
| PaneStr (object : string)
| PaneVega (chart : Chart) (height width : Z)
| PaneJPG (object : list Byte.byte) (height : Z)
| PaneHTML.

Definition main_prediction_view (self : ImageClassifierApp) : pyresult Pane :=
  match model self, top_predictions self with
  | Some _, Some (p :: ps) =>
      rbind (to_main_prediction_string (p :: ps)) (fun main_prediction_string =>
      Ok (PaneMarkdown main_prediction_string))
  | _, _ => Ok (PaneStr "Not Available")
  end.

Definition predictions_chart_view (self : ImageClassifierApp) : pyresult Pane :=
  match model self, top_predictions self with
  | Some _, Some (p :: ps) =>
      let chart := to_predictions_chart (p :: ps) in
      Ok (PaneVega chart 200 400)
  | _, _ => Ok (PaneStr "Not Available")
  end.

Definition image_view (self : ImageClassifierApp) : Pane :=
  match image_file self with
  | Some (b :: bytes) => PaneJPG (b :: bytes) 300
  | _ =>
      PaneMarkdown
        "Drop an image in **.jpg** format onto the FileInput Area or click the **Choose File**
            button to upload."
  end.

(** What the user does to the app after its construction: a file is
    uploaded or cleared, a model is picked.  An exception raised by the
    watcher ends that operation; the app goes on from the state it left. *)
Inductive AppOp : Type :=
| Upload (v : option (list Byte.byte))
| Pick (v : KerasApplication).

Definition app_step (o : AppOp) (w : World) : World :=
  match o with
  | Upload v => snd (set_image_file v w)
  | Pick v => snd (set_model v w)
  end.

Definition app_run (ops : list AppOp) (w : World) : World :=
  fold_left (fun w o => app_step o w) ops w.

(** What the app keeps true between operations: [progress_value] is 0,
    or it is the 1 of [Prediction Started] that an upload which could
    not be opened has left behind, with no predictions; a non-empty
    [top_predictions] comes with a model and an image; and the model
    cache holds at most two models. *)
Definition app_invariant (w : World) : Prop :=
  (progress_value (app w) = 0%Z
   \/ (progress_value (app w) = 1%Z
       /\ progress_message (app w) = "Prediction Started"
       /\ top_predictions (app w) = None))
  /\ (top_predictions_truthy (app w) = true ->
      model_truthy (app w) = true /\ image_file_truthy (app w) = true)
  /\ (List.length (get_model_cache w) <= 2)%nat.

(** The picker's list and the module's global are one list, kept as long
    as the process lives. *)
Definition picker_invariant (w : World) : Prop :=
  objects_is_KERAS_APPLICATIONS w = true
  /\ param_model_objects (app w) = KERAS_APPLICATIONS w
  /\ exists picked,
       KERAS_APPLICATIONS w = (keras_applications_table ++ picked)%list.

End WithExternals.

End ImageClassifierViews.

(** * Facts about the float model *)

Module PyFloatFacts.
Import PyFloat.
Local Open Scope Z_scope.

Lemma rne_cases p q :
  0 <= p -> 0 < q -> rne p q = p / q \/ rne p q = p / q + 1.
Proof.
  intros _ _. unfold rne.
  destruct (2 * (p mod q) ?= q); [destruct (Z.even (p / q)) | |]; auto.
Qed.

Lemma rne_nonneg p q : 0 <= p -> 0 < q -> 0 <= rne p q.
Proof.
  intros Hp Hq. pose proof (Z.div_pos p q Hp Hq).
  destruct (rne_cases p q Hp Hq); lia.
Qed.

Lemma rne_le p q K : 0 <= p -> 0 < q -> p <= K * q -> rne p q <= K.
Proof.
  intros Hp Hq HK. unfold rne.
  pose proof (Z.div_mod p q ltac:(lia)) as E.
  pose proof (Z.mod_pos_bound p q Hq) as B.
  assert (p / q <= K) by nia.
  destruct (Z.compare_spec (2 * (p mod q)) q) as [C|C|C];
    [destruct (Z.even (p / q))| |]; try lia; nia.
Qed.

Lemma rne_below_half p q K :
  0 <= p -> 0 < q -> 2 * p < (2 * K + 1) * q -> rne p q <= K.
Proof.
  intros Hp Hq HK. unfold rne.
  pose proof (Z.div_mod p q ltac:(lia)) as E.
  pose proof (Z.mod_pos_bound p q Hq) as B.
  assert (p / q <= K) by nia.
  destruct (Z.compare_spec (2 * (p mod q)) q) as [C|C|C];
    [destruct (Z.even (p / q))| |]; try lia; nia.
Qed.

Lemma rne_err p q :
  0 <= p -> 0 < q -> 2 * Z.abs (rne p q * q - p) <= q.
Proof.
  intros Hp Hq. unfold rne.
  pose proof (Z.div_mod p q ltac:(lia)) as E.
  pose proof (Z.mod_pos_bound p q Hq) as B.
  destruct (Z.compare_spec (2 * (p mod q)) q) as [C|C|C];
    [destruct (Z.even (p / q))| |]; nia.
Qed.

(** The model agrees with the reference arithmetic on a sample of
    quotients, among them some with [num_tasks = 20], as [do_calc] sets
    it, and with the default 100. *)
Example agrees_with_reference :
  forallb (fun '(c, n) => PyFloatReference.agree c n)
          [(0, 20); (7, 20); (13, 20); (20, 20);
           (29, 100); (57, 100); (1, 3); (-2, 3)] = true.
Proof. vm_compute. reflexivity. Qed.

Lemma spacing_nonneg d : 0 <= spacing d.
Proof. unfold spacing. lia. Qed.

Lemma spacing_le d a : 0 <= a -> d < 2 ^ (a + 53) -> spacing d <= a.
Proof.
  intros Ha Hd. unfold spacing.
  destruct (Z.le_gt_cases d 0) as [H0|H0].
  - rewrite (Z.log2_nonpos d H0). lia.
  - apply Z.log2_lt_pow2 in Hd; lia.
Qed.

Lemma spacing_small d k : 0 <= k -> spacing d < k -> d < 2 ^ (k + 52).
Proof.
  intros Hk Hs. unfold spacing in Hs.
  destruct (Z.le_gt_cases d 0) as [H0|H0].
  - pose proof (Z.pow_pos_nonneg 2 (k + 52)). lia.
  - apply Z.log2_lt_pow2; lia.
Qed.

Lemma round_b64_nonneg p q : 0 <= p -> 0 < q -> 0 <= round_b64 p q.
Proof.
  intros Hp Hq. unfold round_b64.
  pose proof (spacing_nonneg (p / q)) as Hk.
  pose proof (Z.pow_pos_nonneg 2 (spacing (p / q)) ltac:(lia) Hk) as H2.
  pose proof (rne_nonneg p (q * 2 ^ spacing (p / q)) Hp ltac:(nia)). nia.
Qed.

(** Rounding never crosses a value [K * 2^k] of the grid above it. *)
Lemma round_b64_le p q K k :
  0 <= p -> 0 < q -> spacing (p / q) <= k ->
  p <= K * 2 ^ k * q -> round_b64 p q <= K * 2 ^ k.
Proof.
  intros Hp Hq Hs HK. unfold round_b64.
  pose proof (spacing_nonneg (p / q)) as Hk.
  set (k' := spacing (p / q)) in *.
  assert (E : 2 ^ k = 2 ^ (k - k') * 2 ^ k')
    by (rewrite <- Z.pow_add_r by lia; f_equal; lia).
  pose proof (Z.pow_pos_nonneg 2 k' ltac:(lia) Hk) as H2.
  assert (rne p (q * 2 ^ k') <= K * 2 ^ (k - k')).
  { apply rne_le; [lia | nia |]. rewrite E in HK. nia. }
  rewrite E. nia.
Qed.

(** Below the midpoint between [K * 2^k] and its successor, rounding
    stays at or below [K * 2^k]. *)
Lemma round_b64_below_mid p q K k :
  0 <= p -> 0 < q -> 0 <= k -> 2 ^ 52 <= K -> spacing (p / q) <= k ->
  2 * p < (2 * K + 1) * 2 ^ k * q -> round_b64 p q <= K * 2 ^ k.
Proof.
  intros Hp Hq Hk HK Hs Hmid.
  destruct (Z.eq_dec (spacing (p / q)) k) as [Heq|Hne].
  - unfold round_b64. rewrite Heq.
    pose proof (Z.pow_pos_nonneg 2 k ltac:(lia) Hk) as H2.
    assert (rne p (q * 2 ^ k) <= K); [|nia].
    apply rne_below_half; [lia | nia | nia].
  - apply round_b64_le; try lia.
    assert (Hd : p / q < 2 ^ (k + 52)) by (apply spacing_small; lia).
    rewrite Z.pow_add_r in Hd by lia.
    pose proof (Z.pow_pos_nonneg 2 k ltac:(lia) Hk) as H2.
    pose proof (Z.div_mod p q ltac:(lia)) as E.
    pose proof (Z.mod_pos_bound p q Hq) as B.
    assert (p / q + 1 <= 2 ^ k * 2 ^ 52) by lia.
    assert (p < (p / q + 1) * q) by nia.
    assert ((p / q + 1) * q <= 2 ^ k * 2 ^ 52 * q) by nia.
    assert (2 ^ k * 2 ^ 52 * q <= K * 2 ^ k * q) by nia.
    lia.
Qed.

(** The rounding error is at most half the spacing. *)
Lemma round_b64_err p q :
  0 <= p -> 0 < q ->
  2 * Z.abs (round_b64 p q * q - p) <= q * 2 ^ spacing (p / q).
Proof.
  intros Hp Hq. unfold round_b64.
  pose proof (spacing_nonneg (p / q)) as Hk.
  set (k := spacing (p / q)) in *.
  pose proof (Z.pow_pos_nonneg 2 k ltac:(lia) Hk) as H2.
  pose proof (rne_err p (q * 2 ^ k) Hp ltac:(nia)) as He.
  replace (rne p (q * 2 ^ k) * 2 ^ k * q) with (rne p (q * 2 ^ k) * (q * 2 ^ k)) by ring.
  exact He.
Qed.

End PyFloatFacts.

(** * Facts about examples/async_tasks.py *)

Module AsyncTasksFacts.
Import PyFloat PyFloatFacts AsyncTasks.
Local Open Scope Z_scope.

Lemma unit_pos : 0 < unit.
Proof. reflexivity. Qed.

Lemma unit_lt_huge : 100 * unit < huge.
Proof. reflexivity. Qed.

Lemma float_of_int_100 : float_of_int 100 = Ok (Finite (100 * unit)).
Proof. vm_compute. reflexivity. Qed.

(** 1.0 and 100.0 on the grids of spacing 2^1021, 2^1022 and 2^1028. *)
Lemma unit_grid_1021 : unit = 2 ^ 53 * 2 ^ 1021.
Proof. reflexivity. Qed.

Lemma unit_grid_1022 : unit = 2 ^ 52 * 2 ^ 1022.
Proof. reflexivity. Qed.

Lemma unit_grid_1028 : 100 * unit = 100 * 2 ^ 46 * 2 ^ 1028.
Proof. reflexivity. Qed.

Lemma grid_1022 : 2 ^ 1022 = 2 * 2 ^ 1021.
Proof. reflexivity. Qed.

Lemma grid_1028 : 2 ^ 1028 = 128 * 2 ^ 1021.
Proof. reflexivity. Qed.

Lemma grid_pos : 0 < 2 ^ 1021.
Proof. reflexivity. Qed.

Lemma spacing_below_unit d j :
  0 <= j -> d < 2 ^ j * unit -> spacing d <= 1021 + j.
Proof.
  intros Hj Hd. apply spacing_le; [lia|].
  replace (1021 + j + 53) with (j + 1074) by lia.
  rewrite Z.pow_add_r by lia. exact Hd.
Qed.

Local Opaque unit huge.

Lemma round_b64_0 q : 0 < q -> round_b64 0 q = 0.
Proof.
  intros Hq. unfold round_b64, rne. cbn.
  rewrite Z.mul_1_r. destruct q; try reflexivity; lia.
Qed.

(** The quotient of [0 <= c <= n] is a double between 0.0 and 1.0. *)
Lemma ratio_bounds c n :
  0 <= c <= n -> 1 <= n ->
  0 <= round_b64 (c * unit) n <= unit.
Proof.
  intros Hc Hn. pose proof unit_pos as HP.
  split; [apply round_b64_nonneg; nia|].
  rewrite unit_grid_1022 at 2.
  apply round_b64_le; [nia | lia | |].
  - apply (spacing_below_unit _ 1); [lia|].
    apply Z.div_lt_upper_bound; nia.
  - rewrite <- unit_grid_1022. nia.
Qed.

(** The product of 100.0 with a double in [0.0, 1.0] is a double in
    [0.0, 100.0]. *)
Lemma product_bounds f :
  0 <= f <= unit ->
  0 <= round_b64 (100 * unit * f) unit <= 100 * unit.
Proof.
  intros Hf. pose proof unit_pos as HP.
  split; [apply round_b64_nonneg; nia|].
  rewrite unit_grid_1028 at 2.
  apply round_b64_le; [nia | lia | |].
  - replace (100 * unit * f) with (100 * f * unit) by ring.
    rewrite Z.div_mul by lia.
    apply (spacing_below_unit _ 7); [lia|].
    change (2 ^ 7) with 128. lia.
  - rewrite <- unit_grid_1028. nia.
Qed.

(** [value] on a state with [0 <= completed <= num_tasks], in terms of
    the two roundings it performs. *)
Lemma value_eq (p : ProgressExtMod) :
  1 <= num_tasks p -> 0 <= completed p <= num_tasks p ->
  value p =
  Ok (round_b64 (100 * unit * round_b64 (completed p * unit) (num_tasks p)) unit
      / unit).
Proof.
  intros Hn Hc. pose proof unit_pos as HP. pose proof unit_lt_huge as HH.
  pose proof (ratio_bounds _ _ Hc Hn) as Hf.
  set (f := round_b64 (completed p * unit) (num_tasks p)) in *.
  pose proof (product_bounds f Hf) as Hg.
  unfold value, true_div.
  destruct (Z.eqb_spec (num_tasks p) 0) as [E|_]; [lia|].
  rewrite !Z.abs_eq by lia. fold f.
  destruct (Z.leb_spec huge f) as [E|_]; [lia|].
  assert (Es : Z.sgn (completed p) * Z.sgn (num_tasks p) * f = f).
  { rewrite (Z.sgn_pos (num_tasks p)) by lia.
    destruct (Z.eq_dec (completed p) 0) as [E0|E0].
    - subst f. rewrite E0. cbn [Z.mul]. rewrite round_b64_0 by lia. reflexivity.
    - rewrite Z.sgn_pos by lia. lia. }
  rewrite Es. cbn [rbind]. unfold int_mul_float.
  rewrite float_of_int_100. cbn [rbind fmul].
  rewrite Z.abs_eq by nia.
  set (g := round_b64 (100 * unit * f) unit) in *.
  destruct (Z.leb_spec huge g) as [E|_]; [lia|].
  assert (Eg : Z.sgn (100 * unit) * Z.sgn f * g = g).
  { rewrite (Z.sgn_pos (100 * unit)) by lia.
    destruct (Z.eq_dec f 0) as [E0|E0].
    - subst g. rewrite E0. replace (100 * unit * 0) with 0 by ring.
      rewrite round_b64_0 by lia. reflexivity.
    - rewrite Z.sgn_pos by lia. lia. }
  rewrite Eg. cbn [int_of_float].
  rewrite Z.quot_div_nonneg by lia. reflexivity.
Qed.

(** The two roundings together move the value by less than 1. *)
Lemma value_close c n :
  1 <= n -> 0 <= c <= n ->
  Z.abs (round_b64 (100 * unit * round_b64 (c * unit) n) unit * n
         - 100 * c * unit) < n * unit.
Proof.
  intros Hn Hc. pose proof unit_pos as HP.
  pose proof (ratio_bounds _ _ Hc Hn) as Hf.
  pose proof (round_b64_err (c * unit) n ltac:(nia) ltac:(lia)) as E1.
  assert (K1 : spacing (c * unit / n) <= 1021 + 1).
  { apply spacing_below_unit; [lia|]. apply Z.div_lt_upper_bound; nia. }
  set (f := round_b64 (c * unit) n) in *.
  pose proof (product_bounds f Hf) as Hg.
  pose proof (round_b64_err (100 * unit * f) unit ltac:(nia) ltac:(lia)) as E2.
  assert (K2 : spacing (100 * unit * f / unit) <= 1021 + 7).
  { replace (100 * unit * f) with (100 * f * unit) by ring.
    rewrite Z.div_mul by lia.
    apply spacing_below_unit; [lia|]. change (2 ^ 7) with 128. lia. }
  set (g := round_b64 (100 * unit * f) unit) in *.
  assert (P1 : 2 ^ spacing (c * unit / n) <= 2 * 2 ^ 1021).
  { rewrite <- grid_1022. apply Z.pow_le_mono_r; lia. }
  assert (P2 : 2 ^ spacing (100 * unit * f / unit) <= 128 * 2 ^ 1021).
  { rewrite <- grid_1028. apply Z.pow_le_mono_r; lia. }
  pose proof grid_pos as HA.
  rewrite unit_grid_1021 in *. change (2 ^ 53) with 9007199254740992 in *.
  set (A := 2 ^ 1021) in *.
  set (s1 := 2 ^ spacing (c * (9007199254740992 * A) / n)) in *.
  set (s2 := 2 ^ spacing (100 * (9007199254740992 * A) * f / (9007199254740992 * A))) in *.
  clearbody A s1 s2 f g. clear K1 K2.
  assert (D1 : Z.abs (f * n - c * (9007199254740992 * A)) <= n * A) by nia.
  assert (D2 : Z.abs (g - 100 * f) <= 64 * A).
  { replace (g * (9007199254740992 * A) - 100 * (9007199254740992 * A) * f)
      with ((g - 100 * f) * (9007199254740992 * A)) in E2 by ring.
    rewrite Z.abs_mul, (Z.abs_eq (9007199254740992 * A)) in E2 by lia. nia. }
  replace (g * n - 100 * c * (9007199254740992 * A))
    with ((g - 100 * f) * n + 100 * (f * n - c * (9007199254740992 * A))) by ring.
  assert (Z.abs ((g - 100 * f) * n) <= 64 * A * n)
    by (rewrite Z.abs_mul, (Z.abs_eq n) by lia; nia).
  nia.
Qed.

(** *** [value] *)

(** [param] rejects every assignment that would bring [num_tasks]
    below its lower bound. *)
Lemma set_num_tasks_lower_bound v p p' :
  set_num_tasks v p = Ok p' -> 1 <= num_tasks p'.
Proof.
  unfold set_num_tasks. destruct (Z.ltb_spec v 1); [discriminate|].
  intros [= <-]. cbn. lia.
Qed.

(** C10, as the code has it: with [num_tasks >= 1] and
    [0 <= completed <= num_tasks] the property [value] raises nothing (in
    particular it does not divide by zero), lies between 0 and 100
    inclusive, and is [int] of the double-precision product
    [100 * (completed / num_tasks)]: within one of the exact truncation
    of [100 * completed / num_tasks], not always equal to it. *)
Theorem value_well_defined (p : ProgressExtMod) :
  1 <= num_tasks p -> 0 <= completed p <= num_tasks p ->
  exists v, value p = Ok v /\ 0 <= v <= 100 /\
            100 * completed p / num_tasks p - 1 <= v
            <= 100 * completed p / num_tasks p + 1.
Proof.
  intros Hn Hc. pose proof unit_pos as HP.
  rewrite (value_eq p Hn Hc).
  pose proof (ratio_bounds _ _ Hc Hn) as Hf.
  pose proof (value_close _ _ Hn Hc) as Hclose.
  set (f := round_b64 (completed p * unit) (num_tasks p)) in *.
  pose proof (product_bounds f Hf) as Hg.
  set (g := round_b64 (100 * unit * f) unit) in *.
  eexists; split; [reflexivity|].
  pose proof (Z.div_mod g unit ltac:(lia)) as Eg.
  pose proof (Z.mod_pos_bound g unit HP) as Bg.
  pose proof (Z.div_mod (100 * completed p) (num_tasks p) ltac:(lia)) as Et.
  pose proof (Z.mod_pos_bound (100 * completed p) (num_tasks p) ltac:(lia)) as Bt.
  set (v := g / unit) in *. set (t := 100 * completed p / num_tasks p) in *.
  set (r := g mod unit) in *. set (s := (100 * completed p) mod num_tasks p) in *.
  set (n := num_tasks p) in *. set (c := completed p) in *.
  assert (0 <= v <= 100) by nia.
  split; [assumption|].
  assert (E : g * n - 100 * c * unit = n * unit * (v - t) + (r * n - s * unit)).
  { rewrite Eg. replace (100 * c * unit) with ((100 * c) * unit) by ring.
    rewrite Et. ring. }
  rewrite E in Hclose.
  assert (Z.abs (r * n - s * unit) < n * unit) by nia.
  assert (0 < n * unit) by nia.
  set (nu := n * unit) in *.
  assert (Z.abs (nu * (v - t)) < 2 * nu) by lia.
  nia.
Qed.

Lemma value_well_defined_witness :
  exists v, value {| completed := 29; bar_color := "info"; num_tasks := 100 |}
            = Ok v /\ 0 <= v <= 100 /\
            100 * 29 / 100 - 1 <= v <= 100 * 29 / 100 + 1.
Proof.
  apply (value_well_defined
           {| completed := 29; bar_color := "info"; num_tasks := 100 |});
    cbn; lia.
Defined.

(** At 29 completed tasks of 100 the property gives 28, while the exact
    truncation of 100 * 29 / 100 is 29. *)
Lemma value_29_of_100 :
  let p := {| completed := 29; bar_color := "info"; num_tasks := 100 |} in
  (1 <= num_tasks p /\ 0 <= completed p <= num_tasks p)
  /\ value p = Ok 28
  /\ 100 * completed p / num_tasks p = 29
  /\ value p <> Ok (100 * completed p / num_tasks p).
Proof.
  intros p.
  assert (E : value p = Ok 28) by (vm_compute; reflexivity).
  split; [cbn; lia|]. split; [exact E|]. split; [reflexivity|].
  rewrite E. cbn. discriminate.
Qed.


(** *** [increment] *)

Lemma increment_enter_completed p :
  completed (increment_enter p) = completed p + 1
  /\ num_tasks (increment_enter p) = num_tasks p.
Proof. split; reflexivity. Qed.

Lemma increment_call_completed p :
  completed (increment_call p)
  = (if completed p + 1 =? num_tasks p then 0 else completed p + 1).
Proof.
  unfold increment_call, increment_exit. cbn.
  destruct (completed p + 1 =? num_tasks p); reflexivity.
Qed.

Lemma increment_call_num_tasks p :
  num_tasks (increment_call p) = num_tasks p.
Proof.
  unfold increment_call, increment_exit. cbn.
  destruct (completed p + 1 =? num_tasks p); reflexivity.
Qed.

Lemma increment_calls_num_tasks k p :
  num_tasks (increment_calls k p) = num_tasks p.
Proof.
  induction k as [|k IH]; cbn [increment_calls]; [reflexivity|].
  now rewrite increment_call_num_tasks.
Qed.

(** [_update] is such a call: its body adds the number to [result] and
    leaves the progress object alone. *)
Lemma _update_run number w :
  _update number w
  = Ok (tt, with_progress (increment_call (progress w))
              (with_result (result w + number) w)).
Proof. reflexivity. Qed.

(** After [k] calls from zero the counter holds [k mod num_tasks]. *)
Lemma increment_calls_completed k p :
  1 <= num_tasks p -> completed p = 0 ->
  completed (increment_calls k p) = Z.of_nat k mod num_tasks p.
Proof.
  intros Hn H0. induction k as [|k IH].
  - cbn [increment_calls Z.of_nat]. rewrite H0. symmetry. apply Z.mod_0_l. lia.
  - cbn [increment_calls].
    rewrite increment_call_completed, increment_calls_num_tasks, IH.
    set (n := num_tasks p) in *.
    pose proof (Z.div_mod (Z.of_nat k) n ltac:(lia)) as E.
    pose proof (Z.mod_pos_bound (Z.of_nat k) n ltac:(lia)) as B.
    rewrite Nat2Z.inj_succ.
    destruct (Z.eqb_spec (Z.of_nat k mod n + 1) n) as [Heq|Hne].
    + apply (Z.mod_unique_pos _ _ (Z.of_nat k / n + 1)); nia.
    + apply (Z.mod_unique_pos _ _ (Z.of_nat k / n)); nia.
Qed.

(** Below 1.0 the largest double is 1 - 2^-53, and a quotient of
    [c < n < 2^54] never rounds above it. *)
Lemma ratio_below_one c n :
  0 <= c < n -> n < 2 ^ 54 ->
  round_b64 (c * unit) n <= (2 ^ 53 - 1) * 2 ^ 1021.
Proof.
  intros Hc Hn. pose proof unit_pos as HP.
  apply round_b64_below_mid; [nia | lia | lia | reflexivity + lia | |].
  - apply (spacing_below_unit _ 0); [lia|].
    apply Z.div_lt_upper_bound; nia.
  - pose proof grid_pos as HA.
    rewrite unit_grid_1021 in *.
    change (2 ^ 54) with 18014398509481984 in Hn.
    change (2 ^ 53) with 9007199254740992 in *.
    set (A := 2 ^ 1021) in *. clearbody A. nia.
Qed.

(** 100.0 times a double below 1.0 is a double below 100.0. *)
Lemma product_below_100 f :
  0 <= f <= (2 ^ 53 - 1) * 2 ^ 1021 ->
  round_b64 (100 * unit * f) unit <= (100 * 2 ^ 46 - 1) * 2 ^ 1028.
Proof.
  intros Hf. pose proof unit_pos as HP. pose proof grid_pos as HA.
  change (2 ^ 53) with 9007199254740992 in Hf.
  apply round_b64_below_mid;
    [nia | lia | lia | reflexivity + (vm_compute; discriminate) | |].
  - replace (100 * unit * f) with (100 * f * unit) by ring.
    rewrite Z.div_mul by lia.
    apply (spacing_below_unit _ 7); [lia|]. change (2 ^ 7) with 128.
    rewrite unit_grid_1021. change (2 ^ 53) with 9007199254740992.
    set (A := 2 ^ 1021) in *. clearbody A. nia.
  - change (2 ^ 46) with 70368744177664. rewrite grid_1028.
    clear HP. set (A := 2 ^ 1021) in *. clearbody A.
    assert (0 < unit) by apply unit_pos. nia.
Qed.

(** C9, as the code has it: in every run of completed [increment] calls
    from [completed = 0] with a fixed [num_tasks >= 1], [num_tasks] stays
    put and [0 <= completed < num_tasks] holds after each call; a call
    first raises [completed] by one and resets it to 0 when it has
    reached [num_tasks]; and [value] stays strictly below 100 at these
    points as long as [num_tasks < 2^54]. *)
Theorem increment_invariant (bar : string) (n : Z) (k : nat) :
  1 <= n ->
  let p := increment_calls k
             {| completed := 0; bar_color := bar; num_tasks := n |} in
  num_tasks p = n /\ 0 <= completed p < n
  /\ completed (increment_enter p) = completed p + 1
  /\ completed (increment_call p)
     = (if completed p + 1 =? n then 0 else completed p + 1)
  /\ (n < 2 ^ 54 -> exists v, value p = Ok v /\ 0 <= v < 100).
Proof.
  intros Hn p.
  assert (En : num_tasks p = n) by (subst p; apply increment_calls_num_tasks).
  assert (Ec : completed p = Z.of_nat k mod n)
    by (subst p; rewrite increment_calls_completed; cbn; auto).
  pose proof (Z.mod_pos_bound (Z.of_nat k) n ltac:(lia)) as B.
  split; [exact En|]. split; [lia|]. split; [reflexivity|].
  split; [rewrite increment_call_completed, En; reflexivity|].
  intros Hlt. pose proof unit_pos as HP.
  rewrite (value_eq p) by lia. rewrite En.
  assert (Hc : 0 <= completed p < n) by lia.
  pose proof (ratio_below_one _ _ Hc Hlt) as Hf1.
  pose proof (ratio_bounds (completed p) n ltac:(lia) Hn) as Hf.
  set (f := round_b64 (completed p * unit) n) in *.
  pose proof (product_below_100 f ltac:(lia)) as Hg1.
  pose proof (product_bounds f Hf) as Hg.
  set (g := round_b64 (100 * unit * f) unit) in *.
  eexists; split; [reflexivity|]. split.
  - apply Z.div_pos; lia.
  - apply Z.div_lt_upper_bound; [lia|].
    assert (Hlast : (100 * 2 ^ 46 - 1) * 2 ^ 1028 < unit * 100).
    { rewrite (Z.mul_comm unit 100), unit_grid_1028.
      change (2 ^ 46) with 70368744177664.
      assert (0 < 2 ^ 1028) by reflexivity.
      set (G := 2 ^ 1028) in *. clearbody G. lia. }
    clear - Hg1 Hlast. set (top := (100 * 2 ^ 46 - 1) * 2 ^ 1028) in *.
    clearbody top. lia.
Qed.

Lemma increment_invariant_witness :
  let p := increment_calls 25
             {| completed := 0; bar_color := "info"; num_tasks := 20 |} in
  num_tasks p = 20 /\ 0 <= completed p < 20
  /\ completed (increment_enter p) = completed p + 1
  /\ completed (increment_call p)
     = (if completed p + 1 =? 20 then 0 else completed p + 1)
  /\ (20 < 2 ^ 54 -> exists v, value p = Ok v /\ 0 <= v < 100).
Proof. apply (increment_invariant "info" 20 25). lia. Defined.

(** With [num_tasks = 2^54], after [2^54 - 1] calls the counter is still
    below [num_tasks], but the quotient rounds to 1.0 and [value] is
    100. *)
Lemma value_100_below_num_tasks :
  let p := increment_calls (Z.to_nat (2 ^ 54 - 1))
             {| completed := 0; bar_color := "info"; num_tasks := 2 ^ 54 |} in
  0 <= completed p < num_tasks p
  /\ value p = Ok 100
  /\ ~ (exists v, value p = Ok v /\ v < 100).
Proof.
  intros p.
  cut (0 <= completed p < num_tasks p /\ value p = Ok 100).
  { intros [H1 H2]. split; [exact H1|]. split; [exact H2|].
    rewrite H2. intros (v & [= <-] & Hv). lia. }
  assert (En : num_tasks p = 2 ^ 54) by (subst p; apply increment_calls_num_tasks).
  assert (Ec : completed p = 2 ^ 54 - 1).
  { subst p. rewrite increment_calls_completed; cbn [completed num_tasks];
      [|lia|reflexivity].
    rewrite Z2Nat.id by lia. apply Z.mod_small. lia. }
  clearbody p. split; [lia|].
  unfold value. rewrite En, Ec. vm_compute. reflexivity.
Qed.


(** *** [do_calc] *)

(** The futures the executor hands out for [k] submissions in a row. *)
Lemma submit_loop k w :
  let w' := Nat.iter k do_calc_loop_body w in
  progress w' = progress w /\ result w' = result w
  /\ next_future w' = (next_future w + k)%nat
  /\ executor_queue w'
     = executor_queue w
       ++ map (fun i => ({| future_id := i |}, blocking_task))
              (seq (next_future w) k)
  /\ ioloop_callbacks w'
     = ioloop_callbacks w
       ++ map (fun i => ({| future_id := i |}, update))
              (seq (next_future w) k).
Proof.
  induction k as [|k IH]; cbv zeta in *.
  - cbn. rewrite !app_nil_r. repeat split. lia.
  - destruct IH as (Hp & Hr & Hn & Hq & Hc).
    change (Nat.iter (S k) do_calc_loop_body w)
      with (do_calc_loop_body (Nat.iter k do_calc_loop_body w)).
    set (wk := Nat.iter k do_calc_loop_body w) in *. clearbody wk.
    unfold do_calc_loop_body, executor_submit, loop_add_future.
    cbn [progress result next_future executor_queue ioloop_callbacks].
    rewrite Hp, Hr, Hn, Hq, Hc, !seq_S, !map_app, <- !app_assoc.
    cbn [map]. repeat split. lia.
Qed.

(** C8: [do_calc] ignores its argument.  Whatever [num_tasks] is passed,
    it sets [progress.num_tasks] to 20, submits exactly 20 blocking tasks
    to the executor and registers [_update] on the IOLoop for each of
    their futures. *)
Theorem do_calc_ignores_num_tasks (num_tasks_arg : Z) (w : World) :
  exists w',
    do_calc num_tasks_arg w = Ok w'
    /\ num_tasks (progress w') = 20
    /\ completed (progress w') = completed (progress w)
    /\ executor_queue w'
       = executor_queue w
         ++ map (fun i => ({| future_id := i |}, blocking_task))
                (seq (next_future w) 20)
    /\ List.length (executor_queue w')
       = (List.length (executor_queue w) + 20)%nat
    /\ ioloop_callbacks w'
       = ioloop_callbacks w
         ++ map (fun i => ({| future_id := i |}, update))
                (seq (next_future w) 20)
    /\ do_calc num_tasks_arg w = do_calc 10 w.
Proof.
  unfold do_calc, for_range. cbn [set_num_tasks Z.ltb Z.compare rbind].
  change (Z.to_nat 20) with 20%nat.
  eexists; split; [reflexivity|].
  match goal with |- context [Nat.iter 20 ?b ?w0] =>
    destruct (submit_loop 20 w0) as (Hp & _ & _ & Hq & Hc) end.
  cbv zeta in Hp, Hq, Hc.
  rewrite Hp, Hq, Hc. cbn [with_progress progress num_tasks completed
    executor_queue ioloop_callbacks next_future].
  repeat split. rewrite length_app, length_map, length_seq. reflexivity.
Qed.

End AsyncTasksFacts.

(** * Facts about examples/image_classifier.py *)

Module ImageClassifierFacts.
Import ImageClassifier.
Local Open Scope string_scope.
Local Open Scope Z_scope.

(** One step of a run: the first action of a sequence, by its equation. *)
Ltac run_step lem :=
  unfold bind at 1; rewrite lem; cbv beta iota;
  cbn [KERAS_APPLICATIONS objects_is_KERAS_APPLICATIONS get_model_cache app log].

Section WithExternals.
Context {ext : Externals}.

Lemma get_model_run self w :
  get_model self w
  = (Ok (model_in self w),
     {| KERAS_APPLICATIONS := KERAS_APPLICATIONS w;
        objects_is_KERAS_APPLICATIONS := objects_is_KERAS_APPLICATIONS w;
        get_model_cache := cache_after_get_model self w;
        app := app w;
        log := log w ++ get_model_steps self w |}).
Proof.
  unfold get_model, model_in, cache_after_get_model, get_model_steps.
  destruct (cache_find self (get_model_cache w)); cbn.
  - rewrite app_nil_r. reflexivity.
  - reflexivity.
Qed.

Lemma emit_run e w :
  emit e w
  = (Ok tt,
     {| KERAS_APPLICATIONS := KERAS_APPLICATIONS w;
        objects_is_KERAS_APPLICATIONS := objects_is_KERAS_APPLICATIONS w;
        get_model_cache := get_model_cache w;
        app := app w; log := log w ++ [e] |}).
Proof. reflexivity. Qed.

Lemma call_report_run report message value w :
  call_report report message value w
  = (Ok tt,
     {| KERAS_APPLICATIONS := KERAS_APPLICATIONS w;
        objects_is_KERAS_APPLICATIONS := objects_is_KERAS_APPLICATIONS w;
        get_model_cache := get_model_cache w;
        app := report message value (app w);
        log := log w ++ [ReportProgress message value] |}).
Proof. reflexivity. Qed.

Lemma to_input_shape_run self image w :
  to_input_shape self image w
  = (Ok (Image_resize image (input_shape self)),
     {| KERAS_APPLICATIONS := KERAS_APPLICATIONS w;
        objects_is_KERAS_APPLICATIONS := objects_is_KERAS_APPLICATIONS w;
        get_model_cache := get_model_cache w;
        app := app w;
        log := log w ++ [Resize image (input_shape self)] |}).
Proof. reflexivity. Qed.

Lemma preprocess_input_run self image w :
  preprocess_input self image w
  = (Ok (preprocessed self image),
     {| KERAS_APPLICATIONS := KERAS_APPLICATIONS w;
        objects_is_KERAS_APPLICATIONS := objects_is_KERAS_APPLICATIONS w;
        get_model_cache := get_model_cache w;
        app := app w;
        log := log w ++ preprocess_steps self image |}).
Proof.
  unfold preprocess_input, preprocessed, preprocess_steps.
  run_step to_input_shape_run.
  run_step emit_run. run_step emit_run. run_step emit_run.
  unfold ret. rewrite <- !app_assoc. reflexivity.
Qed.

Lemma get_top_predictions_run self image report w :
  get_top_predictions self image report w
  = (match decoded self (model_in self w) image with
     | [] => Raise IndexError
     | top :: _ => Ok top
     end,
     {| KERAS_APPLICATIONS := KERAS_APPLICATIONS w;
        objects_is_KERAS_APPLICATIONS := objects_is_KERAS_APPLICATIONS w;
        get_model_cache := cache_after_get_model self w;
        app := report "" 0
                 (report ("Classifying image with '" ++ name self ++ "'... ") 85
                    (report "Processing image ... " 67
                       (report
                          ("Loading " ++ name self
                           ++ " model ... (The first time this is done it may take several minutes)")
                          10 (app w))));
        log := log w ++ classification_steps self image w |}).
Proof.
  unfold get_top_predictions.
  run_step call_report_run. run_step get_model_run.
  run_step call_report_run. run_step preprocess_input_run.
  run_step call_report_run. run_step emit_run. run_step emit_run.
  run_step call_report_run.
  unfold classification_steps, decoded, list_get.
  rewrite <- !app_assoc. cbn [List.app nth_error].
  destruct (call_decode_predictions _ _); reflexivity.
Qed.


(** C1: [get_top_predictions] obtains the model through [get_model],
    preprocesses the image (resize to [input_shape], conversion to an
    array, a batch dimension, the application's preprocessing function),
    calls [predict] on the result, decodes the predictions and returns the
    first element of the decoded list ([IndexError] where Python's [[0]]
    has nothing to return).  The log shows these calls in this order,
    with the progress reports between them. *)
Theorem get_top_predictions_steps self image report w :
  let run := get_top_predictions self image report w in
  fst (get_model self w) = Ok (model_in self w)
  /\ fst run
     = match call_decode_predictions (decode_predictions_func self)
               (model_predict (model_in self w)
                  (call_preprocess_input (preprocess_input_func self)
                     (np_expand_dims
                        (call_img_to_array (img_to_array_func self)
                           (Image_resize image (input_shape self)))
                        0)))
       with
       | [] => Raise IndexError
       | top :: _ => Ok top
       end
  /\ log (snd run) = (log w ++ classification_steps self image w)%list
  /\ computation_steps (classification_steps self image w)
     = (get_model_steps self w
        ++ preprocess_steps self image
        ++ [ Predict (model_in self w) (preprocessed self image);
             DecodePredictions (decode_predictions_func self)
               (model_predict (model_in self w) (preprocessed self image)) ])%list.
Proof.
  intros run. subst run.
  rewrite get_top_predictions_run, get_model_run. cbn [fst snd log].
  repeat split.
  unfold classification_steps, computation_steps, get_model_steps, preprocess_steps.
  destruct (cache_find self (get_model_cache w)); reflexivity.
Qed.

(** *** The model cache *)

Lemma KerasApplication_eqb_eq a b :
  KerasApplication_eqb a b = true -> a = b.
Proof.
  destruct a as [n1 k1 p1 d1 l1 i1 [s1 t1] u1], b as [n2 k2 p2 d2 l2 i2 [s2 t2] u2].
  unfold KerasApplication_eqb. cbn.
  rewrite !andb_true_iff, !String.eqb_eq, !Z.eqb_eq.
  intros ((((((((-> & ->) & ->) & ->) & ->) & ->) & ->) & ->) & ->).
  reflexivity.
Qed.

Lemma cache_find_pristine self w m :
  cache_pristine w -> cache_find self (get_model_cache w) = Some m ->
  m = call_keras_application (keras_application self) "imagenet".
Proof.
  unfold cache_pristine, cache_find. intros Hp Hf.
  destruct (find _ _) as [[k m']|] eqn:E; [|discriminate].
  injection Hf as <-. apply find_some in E. destruct E as [Hin Heq].
  apply KerasApplication_eqb_eq in Heq. cbn in Heq. subst k.
  rewrite Forall_forall in Hp. exact (Hp _ Hin).
Qed.

Lemma model_in_pristine self w :
  cache_pristine w ->
  model_in self w = call_keras_application (keras_application self) "imagenet".
Proof.
  intros Hp. unfold model_in.
  destruct (cache_find self (get_model_cache w)) eqn:E; [|reflexivity].
  eapply cache_find_pristine; eauto.
Qed.

Lemma Forall_firstn_keep {A : Type} (P : A -> Prop) n (l : list A) :
  Forall P l -> Forall P (firstn n l).
Proof.
  intros H. revert n. induction H; intros [|n]; cbn; constructor; auto.
Qed.

Lemma cache_after_get_model_pristine self w :
  cache_pristine w ->
  Forall (fun e => snd e
                   = call_keras_application (keras_application (fst e)) "imagenet")
         (cache_after_get_model self w).
Proof.
  intros Hp. unfold cache_after_get_model.
  destruct (cache_find self (get_model_cache w)) eqn:E.
  - constructor.
    + cbn. eapply cache_find_pristine; eauto.
    + unfold cache_remove. apply Forall_forall. intros e He.
      apply filter_In in He. destruct He as [He _].
      unfold cache_pristine in Hp. rewrite Forall_forall in Hp. auto.
  - apply Forall_firstn_keep. constructor; [reflexivity | exact Hp].
Qed.

Lemma classification_model_events self image w :
  filter is_model_event (classification_steps self image w)
  = (get_model_steps self w
     ++ [Predict (model_in self w) (preprocessed self image)])%list.
Proof.
  unfold classification_steps, get_model_steps, preprocess_steps.
  destruct (cache_find self (get_model_cache w)); reflexivity.
Qed.

(** *** [set_top_predictions] *)

Lemma set_top_predictions_param_run v w :
  set_top_predictions_param v w
  = (Ok tt,
     {| KERAS_APPLICATIONS := KERAS_APPLICATIONS w;
        objects_is_KERAS_APPLICATIONS := objects_is_KERAS_APPLICATIONS w;
        get_model_cache := get_model_cache w;
        app := with_top_predictions v (app w);
        log := log w ++ [SetTopPredictions v] |}).
Proof. reflexivity. Qed.

Lemma get_app_run w : get_app w = (Ok (app w), w).
Proof. reflexivity. Qed.

Lemma truthy_cases (a : ImageClassifierApp) :
  image_file_truthy a && model_truthy a = true
  <-> exists b bytes m, image_file a = Some (b :: bytes) /\ model a = Some m.
Proof.
  unfold image_file_truthy, model_truthy.
  destruct (image_file a) as [[|b bytes]|], (model a) as [m|]; cbn; split;
    try discriminate; try (intros (? & ? & ? & [=] & [=]); fail);
    try (intros (? & ? & ? & [=] & ?); fail);
    try (intros (? & ? & ? & ? & [=]); fail).
  - intros _. eauto.
  - reflexivity.
Qed.

(** Nothing to classify: only the clearing happens. *)
Lemma set_top_predictions_idle w :
  image_file_truthy (app w) && model_truthy (app w) = false ->
  set_top_predictions w
  = (Ok tt,
     {| KERAS_APPLICATIONS := KERAS_APPLICATIONS w;
        objects_is_KERAS_APPLICATIONS := objects_is_KERAS_APPLICATIONS w;
        get_model_cache := get_model_cache w;
        app := with_top_predictions None (app w);
        log := log w ++ [SetTopPredictions None] |}).
Proof.
  intros H. unfold set_top_predictions.
  run_step set_top_predictions_param_run. run_step get_app_run.
  unfold image_file_truthy, model_truthy in H.
  cbn [with_top_predictions image_file model].
  destruct (image_file (app w)) as [[|b bytes]|], (model (app w)) as [m|];
    cbn in H; try discriminate; reflexivity.
Qed.

(** Both parameters set, but the file is no image: [Image.open] raises
    after the first progress report, and nothing resets the progress. *)
Lemma set_top_predictions_unidentified w b bytes m :
  image_file (app w) = Some (b :: bytes) -> model (app w) = Some m ->
  Image_open (b :: bytes) = None ->
  set_top_predictions w
  = (Raise UnidentifiedImageError,
     {| KERAS_APPLICATIONS := KERAS_APPLICATIONS w;
        objects_is_KERAS_APPLICATIONS := objects_is_KERAS_APPLICATIONS w;
        get_model_cache := get_model_cache w;
        app := report_progress "Prediction Started" 1
                 (with_top_predictions None (app w));
        log := log w
               ++ [ SetTopPredictions None;
                    ReportProgress "Prediction Started" 1;
                    ImageOpen (b :: bytes) ] |}).
Proof.
  intros Hi Hm Ho. unfold set_top_predictions.
  run_step set_top_predictions_param_run. run_step get_app_run.
  cbn [with_top_predictions image_file model]. rewrite Hi, Hm.
  run_step call_report_run. run_step emit_run. rewrite Ho.
  unfold raise. rewrite <- !app_assoc. cbn [List.app]. reflexivity.
Qed.

(** Both parameters set and the file is an image: the classification
    runs. *)
Lemma set_top_predictions_run w b bytes m image :
  image_file (app w) = Some (b :: bytes) -> model (app w) = Some m ->
  Image_open (b :: bytes) = Some image ->
  let outcome := decoded m (model_in m w) image in
  let reported :=
    report_progress "" 0
      (report_progress ("Classifying image with '" ++ name m ++ "'... ") 85
         (report_progress "Processing image ... " 67
            (report_progress
               ("Loading " ++ name m
                ++ " model ... (The first time this is done it may take several minutes)")
               10
               (report_progress "Prediction Started" 1
                  (with_top_predictions None (app w)))))) in
  set_top_predictions w
  = (match outcome with [] => Raise IndexError | _ :: _ => Ok tt end,
     {| KERAS_APPLICATIONS := KERAS_APPLICATIONS w;
        objects_is_KERAS_APPLICATIONS := objects_is_KERAS_APPLICATIONS w;
        get_model_cache := cache_after_get_model m w;
        app := match outcome with
               | [] => reported
               | top :: _ => with_top_predictions (Some top) reported
               end;
        log := log w
               ++ [ SetTopPredictions None;
                    ReportProgress "Prediction Started" 1;
                    ImageOpen (b :: bytes) ]
               ++ classification_steps m image w
               ++ match outcome with
                  | [] => []
                  | top :: _ => [SetTopPredictions (Some top)]
                  end |}).
Proof.
  intros Hi Hm Ho outcome reported. unfold set_top_predictions.
  run_step set_top_predictions_param_run. run_step get_app_run.
  cbn [with_top_predictions image_file model]. rewrite Hi, Hm.
  run_step call_report_run. run_step emit_run. rewrite Ho.
  unfold bind at 1. rewrite get_top_predictions_run.
  unfold classification_steps, model_in, get_model_steps, cache_after_get_model.
  cbn [KERAS_APPLICATIONS objects_is_KERAS_APPLICATIONS get_model_cache app log].
  fold (model_in m w). fold (get_model_steps m w). fold outcome.
  destruct outcome as [|top rest].
  - rewrite <- !app_assoc, app_nil_r. cbn [List.app]. reflexivity.
  - rewrite set_top_predictions_param_run.
    cbn [KERAS_APPLICATIONS objects_is_KERAS_APPLICATIONS get_model_cache app log].
    rewrite <- !app_assoc. cbn [List.app]. reflexivity.
Qed.

(** Every run of the watcher is as described. *)
Lemma set_top_predictions_outcome w :
  watcher_outcome w (set_top_predictions w).
Proof.
  unfold watcher_outcome. cbv zeta.
  destruct (image_file_truthy (app w) && model_truthy (app w)) eqn:E.
  - pose proof (proj1 (truthy_cases (app w)) E) as (b & bytes & m & Hi & Hm).
    split; [|split].
    + destruct (Image_open (b :: bytes)) as [image|] eqn:Ho.
      * rewrite (set_top_predictions_run w b bytes m image Hi Hm Ho).
        cbn [snd log]. eexists. cbn [List.app]. reflexivity.
      * rewrite (set_top_predictions_unidentified w b bytes m Hi Hm Ho).
        cbn [snd log]. eexists. cbn [List.app]. reflexivity.
    + discriminate.
    + intros b' bytes' m' Hi' Hm'.
      assert (b' = b /\ bytes' = bytes) as [-> ->]
        by (rewrite Hi in Hi'; injection Hi'; auto).
      assert (m' = m) as -> by congruence.
      destruct (Image_open (b :: bytes)) as [image|] eqn:Ho.
      * rewrite (set_top_predictions_run w b bytes m image Hi Hm Ho).
        cbv zeta. cbn [fst snd app log].
        repeat split. destruct (decoded m (model_in m w) image); reflexivity.
      * rewrite (set_top_predictions_unidentified w b bytes m Hi Hm Ho).
        cbn [fst snd app log get_model_cache]. repeat split.
  - rewrite (set_top_predictions_idle w E). cbn [fst snd log app top_predictions
      with_top_predictions get_model_cache].
    split; [|split].
    + exists []. reflexivity.
    + auto.
    + intros b bytes m Hi Hm. exfalso.
      assert (image_file_truthy (app w) && model_truthy (app w) = true)
        by (apply truthy_cases; eauto).
      congruence.
Qed.

(** *** The two watched parameters *)

Lemma bytes_eqb_eq x y : bytes_eqb x y = true <-> x = y.
Proof.
  revert y. induction x as [|a x IH]; intros [|b y]; cbn;
    try (split; [discriminate | discriminate]); [tauto|].
  rewrite andb_true_iff, IH. split.
  - intros [H ->]. apply Byte.byte_dec_bl in H. congruence.
  - intros [= -> ->]. split; [apply Byte.byte_dec_lb|]; reflexivity.
Qed.

Lemma is_equal_eq old new : is_equal old new = true <-> old = new.
Proof.
  destruct old as [x|], new as [y|]; cbn;
    try (split; [discriminate | discriminate]); [|tauto].
  rewrite bytes_eqb_eq. split; congruence.
Qed.

(** The value already held: the assignment changes nothing and the
    watcher is not called. *)
Lemma set_image_file_unchanged w :
  set_image_file (image_file (app w)) w = (Ok tt, w).
Proof.
  unfold set_image_file. run_step get_app_run. unfold bind at 1.
  cbn [modify_app].
  rewrite (proj2 (is_equal_eq _ _) eq_refl). unfold ret.
  destruct w as [K o c a l]. destruct a. reflexivity.
Qed.

(** Another value: the watcher runs on the app that holds it. *)
Lemma set_image_file_changed v w :
  image_file (app w) <> v ->
  set_image_file v w
  = set_top_predictions
      {| KERAS_APPLICATIONS := KERAS_APPLICATIONS w;
         objects_is_KERAS_APPLICATIONS := objects_is_KERAS_APPLICATIONS w;
         get_model_cache := get_model_cache w;
         app := with_image_file v (app w);
         log := log w |}.
Proof.
  intros H. unfold set_image_file. run_step get_app_run. unfold bind at 1.
  cbn [modify_app].
  destruct (is_equal (image_file (app w)) v) eqn:E; [|reflexivity].
  apply is_equal_eq in E. contradiction.
Qed.

(** The world in which the watcher runs after [self.model = v]. *)
Lemma set_model_runs_watcher v w :
  exists w1,
    model (app w1) = Some v /\ image_file (app w1) = image_file (app w)
    /\ top_predictions (app w1) = top_predictions (app w)
    /\ progress_value (app w1) = progress_value (app w)
    /\ progress_message (app w1) = progress_message (app w)
    /\ get_model_cache w1 = get_model_cache w /\ log w1 = log w
    /\ set_model v w = set_top_predictions w1.
Proof.
  unfold set_model. run_step get_app_run.
  destruct (existsb (KerasApplication_eqb v) (param_model_objects (app w)));
    unfold bind at 1; cbn [ret param_model_objects_append];
    unfold bind at 1; cbn [modify_app];
    (eexists; repeat match goal with |- _ /\ _ => split end;
     [.. | reflexivity]); reflexivity.
Qed.


Lemma set_top_predictions_model_events w :
  cache_pristine w ->
  let w' := snd (set_top_predictions w) in
  cache_pristine w'
  /\ exists events,
       log w' = (log w ++ events)%list
       /\ (filter is_model_event events = []
           \/ exists m image,
                model (app w) = Some m
                /\ filter is_model_event events
                   = (get_model_steps m w
                      ++ [Predict
                            (call_keras_application (keras_application m) "imagenet")
                            (preprocessed m image)])%list).
Proof.
  intros Hp w'. subst w'.
  destruct (image_file_truthy (app w) && model_truthy (app w)) eqn:E.
  - pose proof (proj1 (truthy_cases (app w)) E) as (b & bytes & m & Hi & Hm).
    destruct (Image_open (b :: bytes)) as [image|] eqn:Ho.
    + rewrite (set_top_predictions_run w b bytes m image Hi Hm Ho).
      cbn [snd log get_model_cache]. split.
      * unfold cache_pristine. cbn [get_model_cache].
        apply cache_after_get_model_pristine. exact Hp.
      * eexists. split; [reflexivity|]. right.
        exists m, image. split; [exact Hm|].
        rewrite !filter_app, classification_model_events.
        rewrite (model_in_pristine m w Hp). cbn [filter is_model_event List.app].
        destruct (decoded _ _ _); cbn [filter is_model_event];
          rewrite app_nil_r; reflexivity.
    + rewrite (set_top_predictions_unidentified w b bytes m Hi Hm Ho).
      cbn [snd log]. split; [exact Hp|].
      eexists. split; [reflexivity|]. left. reflexivity.
  - rewrite (set_top_predictions_idle w E). cbn [snd log]. split.
    + exact Hp.
    + eexists. split; [reflexivity|]. left. reflexivity.
Qed.

(** C6: the model is only used for inference.  [get_model] builds the
    application with [weights="imagenet"] (and only when it is not
    cached); a run of [get_top_predictions] touches the model in one
    [predict] call and nothing else; the same holds of the app's
    [set_top_predictions], the one operation that reaches the model;
    and the models kept in the cache stay the pretrained ones. *)
Theorem model_used_only_for_inference self image report w :
  cache_pristine w ->
  fst (get_model self w)
  = Ok (call_keras_application (keras_application self) "imagenet")
  /\ (get_model_steps self w = []
      \/ get_model_steps self w
         = [CallKerasApplication (keras_application self) "imagenet"])
  /\ (let w' := snd (get_top_predictions self image report w) in
      cache_pristine w'
      /\ exists before after,
           log w' = (log w ++ before
                     ++ [Predict
                           (call_keras_application (keras_application self)
                              "imagenet")
                           (preprocessed self image)]
                     ++ after)%list
           /\ filter is_model_event before = get_model_steps self w
           /\ filter is_model_event after = [])
  /\ (let w' := snd (set_top_predictions w) in
      cache_pristine w'
      /\ exists events,
           log w' = (log w ++ events)%list
           /\ (filter is_model_event events = []
               \/ exists m image,
                    model (app w) = Some m
                    /\ filter is_model_event events
                       = (get_model_steps m w
                          ++ [Predict
                                (call_keras_application (keras_application m)
                                   "imagenet")
                                (preprocessed m image)])%list)).
Proof.
  intros Hp.
  rewrite get_top_predictions_run, get_model_run. cbn [fst snd log].
  rewrite (model_in_pristine self w Hp).
  split; [reflexivity|]. split; [|split].
  - unfold get_model_steps.
    destruct (cache_find self (get_model_cache w)); auto.
  - split.
    + unfold cache_pristine. cbn [get_model_cache].
      apply cache_after_get_model_pristine. exact Hp.
    + unfold classification_steps. rewrite (model_in_pristine self w Hp).
      eexists ([_] ++ get_model_steps self w ++ [_]
               ++ preprocess_steps self image ++ [_])%list, [_; _].
      split; [|split].
      * rewrite <- !app_assoc. reflexivity.
      * unfold get_model_steps, preprocess_steps.
        destruct (cache_find self (get_model_cache w)); reflexivity.
      * reflexivity.
  - apply set_top_predictions_model_events. exact Hp.
Qed.

(** *** Construction of the app *)

(** C5: the picker offers exactly the eight applications of
    [KERAS_APPLICATIONS], in the order of the source, and a newly
    constructed app has [KERAS_APPLICATIONS[2]], MobileNetV2, selected and
    as its default. *)
Theorem model_picker_defaults w :
  KERAS_APPLICATIONS w = [] \/ KERAS_APPLICATIONS w = keras_applications_table ->
  let w' := snd (ImageClassifierApp_init w) in
  fst (ImageClassifierApp_init w) = Ok tt
  /\ KERAS_APPLICATIONS w' = keras_applications_table
  /\ map name (KERAS_APPLICATIONS w')
     = [ "DenseNet121"; "InceptionV3"; "MobileNetV2"; "NASNetMobile";
         "NASNetLarge"; "ResNet50"; "VGG19"; "Xception" ]
  /\ param_model_objects (app w') = KERAS_APPLICATIONS w'
  /\ DEFAULT_KERAS_APPLICATION_INDEX = 2%nat
  /\ model (app w')
     = nth_error (KERAS_APPLICATIONS w') DEFAULT_KERAS_APPLICATION_INDEX
  /\ param_model_default (app w') = model (app w')
  /\ option_map name (model (app w')) = Some "MobileNetV2".
Proof.
  intros H w'. subst w'. destruct w as [K o c a l]. cbn in H.
  destruct H as [-> | ->]; cbn; repeat split.
Qed.

(** *** [predictions_view] *)

(** C7: with a nonzero [progress_value] the view is the progress column
    (a [Progress] widget with that value and the progress message); with
    [progress_value] 0 and non-empty [top_predictions] it is the column
    of the main prediction view and the chart view; otherwise it is an
    empty HTML pane.  [report_progress] is what sets the two progress
    parameters. *)
Theorem predictions_view_cases (self : ImageClassifierApp) :
  (progress_value self <> 0 ->
   predictions_view self
   = Column [ Markdown "## Prediction";
              Progress (progress_value self) 200;
              Str (progress_message self) ] "stretch_width")
  /\ (progress_value self = 0 -> top_predictions_truthy self = true ->
      predictions_view self
      = Column [ Markdown "## Prediction";
                 ParamMethod main_prediction_view;
                 Markdown "## Alternative Predictions";
                 ParamMethod predictions_chart_view ] "stretch_width")
  /\ (progress_value self = 0 -> top_predictions_truthy self = false ->
      predictions_view self = HTML)
  /\ (forall message value,
        progress_value (report_progress message value self) = value
        /\ progress_message (report_progress message value self) = message
        /\ top_predictions (report_progress message value self)
           = top_predictions self).
Proof.
  unfold predictions_view. repeat split.
  - intros H. destruct (Z.eqb_spec (progress_value self) 0); [contradiction|].
    reflexivity.
  - intros -> ->. reflexivity.
  - intros -> ->. reflexivity.
Qed.


End WithExternals.

(** *** The theorems at work on the example instance *)

#[local] Existing Instance example_externals.

Example example_classification :
  fst (get_top_predictions (ext := example_externals)
         {| name := "MobileNetV2";
            keras_application := "mobilenet_v2.MobileNetV2";
            preprocess_input_func := "mobilenet_v2.preprocess_input";
            decode_predictions_func := "mobilenet_v2.decode_predictions";
            load_img_func := "load_img";
            img_to_array_func := "img_to_array";
            input_shape := default_input_shape;
            url := "https://keras.io/applications/#mobilenet" |}
         2 print example_world)
  = Ok [ ("n02123045", "tabby", 61);
         ("n02123159", "tiger_cat", 25);
         ("n02124075", "Egyptian_cat", 9) ].
Proof. reflexivity. Qed.



Lemma model_used_only_for_inference_witness :
  let self : KerasApplication :=
    {| name := "MobileNetV2";
       keras_application := "mobilenet_v2.MobileNetV2";
       preprocess_input_func := "mobilenet_v2.preprocess_input";
       decode_predictions_func := "mobilenet_v2.decode_predictions";
       load_img_func := "load_img";
       img_to_array_func := "img_to_array";
       input_shape := default_input_shape;
       url := "https://keras.io/applications/#mobilenet" |} in
  let w := example_world in
  cache_pristine w
  /\ fst (get_model self w)
     = Ok (call_keras_application (keras_application self) "imagenet")
  /\ cache_pristine (snd (get_top_predictions self 2 print w))
  /\ cache_pristine (snd (set_top_predictions w)).
Proof.
  intros self w.
  assert (Hp : cache_pristine w) by constructor.
  pose proof (model_used_only_for_inference self 2 print w Hp)
    as (H1 & _ & (H3 & _) & (H4 & _)).
  exact (conj Hp (conj H1 (conj H3 H4))).
Defined.

Lemma model_picker_defaults_witness :
  let w := World_new (ext := example_externals) in
  let w' := snd (ImageClassifierApp_init w) in
  fst (ImageClassifierApp_init w) = Ok tt
  /\ KERAS_APPLICATIONS w' = keras_applications_table
  /\ map name (KERAS_APPLICATIONS w')
     = [ "DenseNet121"; "InceptionV3"; "MobileNetV2"; "NASNetMobile";
         "NASNetLarge"; "ResNet50"; "VGG19"; "Xception" ]
  /\ param_model_objects (app w') = KERAS_APPLICATIONS w'
  /\ DEFAULT_KERAS_APPLICATION_INDEX = 2%nat
  /\ model (app w')
     = nth_error (KERAS_APPLICATIONS w') DEFAULT_KERAS_APPLICATION_INDEX
  /\ param_model_default (app w') = model (app w')
  /\ option_map name (model (app w')) = Some "MobileNetV2".
Proof.
  intros w.
  apply (model_picker_defaults (ext := example_externals) w).
  left. reflexivity.
Defined.

Lemma predictions_view_cases_witness :
  let classifying : ImageClassifierApp (ext := example_externals) :=
    report_progress "Processing image ... " 67 ImageClassifierApp_new in
  predictions_view classifying
  = Column [ Markdown "## Prediction";
             Progress 67 200;
             Str "Processing image ... " ] "stretch_width".
Proof.
  intros classifying.
  apply (proj1 (predictions_view_cases (ext := example_externals) classifying)).
  discriminate.
Defined.

End ImageClassifierFacts.

(** * Further facts about the float model *)

Module PyFloatMore.
Import PyFloat PyFloatFacts.
Local Open Scope Z_scope.

Lemma rne_ge p q K : 0 <= p -> 0 < q -> K * q <= p -> K <= rne p q.
Proof.
  intros Hp Hq HK.
  pose proof (Z.div_mod p q ltac:(lia)) as E.
  pose proof (Z.mod_pos_bound p q Hq) as B.
  assert (K <= p / q) by nia.
  destruct (rne_cases p q Hp Hq); lia.
Qed.

Lemma rne_exact K q : 0 <= K -> 0 < q -> rne (K * q) q = K.
Proof.
  intros HK Hq. unfold rne.
  rewrite Z.div_mul, Z.mod_mul by lia.
  destruct (Z.compare_spec (2 * 0) q); lia.
Qed.

Lemma rne_mono p p' q : 0 <= p <= p' -> 0 < q -> rne p q <= rne p' q.
Proof.
  intros Hp Hq.
  pose proof (Z.div_mod p q ltac:(lia)) as E.
  pose proof (Z.mod_pos_bound p q Hq) as B.
  pose proof (Z.div_mod p' q ltac:(lia)) as E'.
  pose proof (Z.mod_pos_bound p' q Hq) as B'.
  assert (Hd : p / q <= p' / q) by (apply Z.div_le_mono; lia).
  destruct (Z.eq_dec (p / q) (p' / q)) as [Heq|Hne].
  - unfold rne. rewrite <- Heq in *.
    assert (p mod q <= p' mod q) by lia.
    destruct (Z.compare_spec (2 * (p mod q)) q),
             (Z.compare_spec (2 * (p' mod q)) q),
             (Z.even (p / q)); lia.
  - destruct (rne_cases p q ltac:(lia) Hq), (rne_cases p' q ltac:(lia) Hq); lia.
Qed.

Lemma spacing_mono d d' : d <= d' -> spacing d <= spacing d'.
Proof.
  intros H. unfold spacing. pose proof (Z.log2_le_mono d d' H). lia.
Qed.

(** Rounding to the nearest double is monotone. *)
Lemma round_b64_mono p p' q :
  0 <= p <= p' -> 0 < q -> round_b64 p q <= round_b64 p' q.
Proof.
  intros Hp Hq.
  assert (Hd : p / q <= p' / q) by (apply Z.div_le_mono; lia).
  pose proof (spacing_mono _ _ Hd) as Hk.
  pose proof (spacing_nonneg (p / q)) as Hk0.
  destruct (Z.eq_dec (spacing (p / q)) (spacing (p' / q))) as [Heq|Hne].
  - unfold round_b64. rewrite <- Heq.
    pose proof (Z.pow_pos_nonneg 2 (spacing (p / q)) ltac:(lia) Hk0) as H2.
    assert (rne p (q * 2 ^ spacing (p / q)) <= rne p' (q * 2 ^ spacing (p / q)))
      by (apply rne_mono; [lia | nia]).
    nia.
  - unfold round_b64 at 2. set (k' := spacing (p' / q)) in *.
    assert (Hk' : 0 < k') by lia.
    pose proof (Z.pow_pos_nonneg 2 k' ltac:(lia) ltac:(lia)) as H2.
    apply round_b64_le; [lia | lia | lia |].
    assert (Hsmall : p / q < 2 ^ (k' + 52)) by (apply spacing_small; lia).
    assert (Hbig : 2 ^ (k' + 52) <= p' / q).
    { assert (0 < p' / q).
      { destruct (Z.le_gt_cases (p' / q) 0) as [H0|H0]; [|exact H0].
        subst k'. unfold spacing in Hk'.
        rewrite (Z.log2_nonpos _ H0) in Hk'. lia. }
      subst k'. unfold spacing in *.
      replace (Z.max 0 (Z.log2 (p' / q) - 52) + 52) with (Z.log2 (p' / q)) by lia.
      apply Z.log2_spec. assumption. }
    rewrite Z.pow_add_r in Hsmall, Hbig by lia.
    pose proof (Z.div_mod p q ltac:(lia)) as E.
    pose proof (Z.mod_pos_bound p q Hq) as B.
    pose proof (Z.div_mod p' q ltac:(lia)) as E'.
    pose proof (Z.mod_pos_bound p' q Hq) as B'.
    assert (HK : 2 ^ 52 <= rne p' (q * 2 ^ k')).
    { apply rne_ge; [lia | nia |].
      assert (2 ^ k' * 2 ^ 52 * q <= p') by nia. nia. }
    assert (p < (p / q + 1) * q) by nia.
    assert ((p / q + 1) * q <= 2 ^ k' * 2 ^ 52 * q) by nia.
    assert (2 ^ k' * 2 ^ 52 * q <= rne p' (q * 2 ^ k') * 2 ^ k' * q) by nia.
    lia.
Qed.

(** A value on the grid of its own spacing is not moved. *)
Lemma round_b64_exact K k q :
  0 <= K -> 0 < q -> spacing (K * 2 ^ k) = k ->
  round_b64 (K * 2 ^ k * q) q = K * 2 ^ k.
Proof.
  intros HK Hq Hs. unfold round_b64.
  rewrite Z.div_mul by lia. rewrite Hs.
  replace (K * 2 ^ k * q) with (K * (q * 2 ^ k)) by ring.
  pose proof (spacing_nonneg (K * 2 ^ k)) as Hk. rewrite Hs in Hk.
  pose proof (Z.pow_pos_nonneg 2 k ltac:(lia) Hk) as H2.
  rewrite rne_exact by nia. reflexivity.
Qed.

End PyFloatMore.

(** * Further facts about examples/async_tasks.py *)

Module AsyncTasksMore.
Import PyFloat PyFloatFacts PyFloatMore AsyncTasks AsyncTasksFacts AsyncTasksRuns.
Local Open Scope Z_scope.

Lemma spacing_unit : spacing unit = 1022.
Proof. reflexivity. Qed.

Lemma spacing_100 : spacing (100 * 2 ^ 46 * 2 ^ 1028) = 1028.
Proof. reflexivity. Qed.

Local Opaque unit huge.

(** 1.0 is what [n / n] gives, and 100.0 what [100 * 1.0] gives. *)
Lemma ratio_one n : 1 <= n -> round_b64 (n * unit) n = unit.
Proof.
  intros Hn. rewrite unit_grid_1022.
  replace (n * (2 ^ 52 * 2 ^ 1022)) with (2 ^ 52 * 2 ^ 1022 * n) by ring.
  apply round_b64_exact; [reflexivity + lia | lia |].
  rewrite <- unit_grid_1022. exact spacing_unit.
Qed.

Lemma product_100 : round_b64 (100 * unit * unit) unit = 100 * unit.
Proof.
  pose proof unit_pos. rewrite unit_grid_1028.
  apply round_b64_exact; [reflexivity + lia | lia |].
  exact spacing_100.
Qed.

Lemma value_range (p : ProgressExtMod) :
  1 <= num_tasks p -> 0 <= completed p <= num_tasks p ->
  exists v, value p = Ok v /\ 0 <= v <= 100.
Proof.
  intros Hn Hc. pose proof unit_pos as HP.
  rewrite (value_eq p Hn Hc).
  pose proof (ratio_bounds _ _ Hc Hn) as Hf.
  pose proof (product_bounds _ Hf) as Hg.
  eexists; split; [reflexivity|]. split.
  - apply Z.div_pos; lia.
  - apply Z.div_le_upper_bound; lia.
Qed.

Lemma value_at_zero (p : ProgressExtMod) :
  1 <= num_tasks p -> completed p = 0 -> value p = Ok 0.
Proof.
  intros Hn Hc. pose proof unit_pos as HP.
  rewrite (value_eq p Hn) by lia. rewrite Hc. cbn [Z.mul].
  rewrite round_b64_0 by lia.
  replace (100 * unit * 0) with 0 by ring.
  rewrite round_b64_0 by lia. reflexivity.
Qed.

Lemma value_at_full (p : ProgressExtMod) :
  1 <= num_tasks p -> completed p = num_tasks p -> value p = Ok 100.
Proof.
  intros Hn Hc. pose proof unit_pos as HP.
  rewrite (value_eq p Hn) by lia. rewrite Hc.
  rewrite ratio_one by lia. rewrite product_100.
  rewrite Z.div_mul by lia. reflexivity.
Qed.

(** The two ends of the scale are exact: nothing completed gives 0, and
    everything completed gives 100, for every [num_tasks >= 1]. *)
Theorem value_endpoints (p : ProgressExtMod) :
  1 <= num_tasks p ->
  (completed p = 0 -> value p = Ok 0)
  /\ (completed p = num_tasks p -> value p = Ok 100).
Proof.
  intros Hn. split; [apply value_at_zero | apply value_at_full]; exact Hn.
Qed.

Lemma value_endpoints_witness :
  value {| completed := 0; bar_color := "info"; num_tasks := 7 |} = Ok 0
  /\ value {| completed := 7; bar_color := "info"; num_tasks := 7 |} = Ok 100.
Proof.
  split.
  - apply (proj1 (value_endpoints
                    {| completed := 0; bar_color := "info"; num_tasks := 7 |}
                    ltac:(cbn; lia))).
    reflexivity.
  - apply (proj2 (value_endpoints
                    {| completed := 7; bar_color := "info"; num_tasks := 7 |}
                    ltac:(cbn; lia))).
    reflexivity.
Defined.

(** More completed tasks never show as less progress. *)
Theorem value_monotone (p p' : ProgressExtMod) :
  1 <= num_tasks p -> num_tasks p' = num_tasks p ->
  0 <= completed p <= completed p' -> completed p' <= num_tasks p ->
  exists v v', value p = Ok v /\ value p' = Ok v' /\ v <= v'.
Proof.
  intros Hn En Hc Hc'. pose proof unit_pos as HP.
  rewrite (value_eq p Hn) by lia.
  rewrite (value_eq p') by lia. rewrite En.
  pose proof (ratio_bounds (completed p) (num_tasks p) ltac:(lia) Hn) as Hf.
  pose proof (ratio_bounds (completed p') (num_tasks p) ltac:(lia) Hn) as Hf'.
  assert (Hm : round_b64 (completed p * unit) (num_tasks p)
               <= round_b64 (completed p' * unit) (num_tasks p))
    by (apply round_b64_mono; [nia | lia]).
  set (f := round_b64 (completed p * unit) (num_tasks p)) in *.
  set (f' := round_b64 (completed p' * unit) (num_tasks p)) in *.
  do 2 eexists. split; [reflexivity|]. split; [reflexivity|].
  apply Z.div_le_mono; [lia|].
  apply round_b64_mono; [nia | lia].
Qed.

Lemma value_monotone_witness :
  exists v v',
    value {| completed := 28; bar_color := "info"; num_tasks := 100 |} = Ok v
    /\ value {| completed := 29; bar_color := "info"; num_tasks := 100 |} = Ok v'
    /\ v <= v'.
Proof.
  apply (value_monotone
           {| completed := 28; bar_color := "info"; num_tasks := 100 |}
           {| completed := 29; bar_color := "info"; num_tasks := 100 |});
    cbn; lia.
Defined.

(** [view] never raises on a state with [0 <= completed <= num_tasks]; it
    shows nothing when nothing is completed, and a widget it shows is
    active and carries [value], which is then between 1 and 100. *)
Theorem view_shows_value (p : ProgressExtMod) :
  1 <= num_tasks p -> 0 <= completed p <= num_tasks p ->
  (exists r, view p = Ok r)
  /\ (completed p = 0 -> view p = Ok None)
  /\ (forall wdg, view p = Ok (Some wdg) ->
        active wdg = true /\ value p = Ok (progress_value wdg)
        /\ 1 <= progress_value wdg <= 100).
Proof.
  intros Hn Hc.
  destruct (value_range p Hn Hc) as (v & Ev & Hv).
  unfold view. rewrite Ev. cbn [rbind].
  split; [|split].
  - destruct (v =? 0); eauto.
  - intros H0. pose proof (value_at_zero p Hn H0) as E0.
    rewrite Ev in E0. injection E0 as ->. reflexivity.
  - intros wdg. destruct (Z.eqb_spec v 0) as [->|Hne]; [discriminate|].
    intros [= <-]. cbn. repeat split; lia.
Qed.

Lemma view_shows_value_witness :
  view {| completed := 0; bar_color := "info"; num_tasks := 20 |} = Ok None.
Proof.
  apply (view_shows_value
           {| completed := 0; bar_color := "info"; num_tasks := 20 |});
    cbn; lia || reflexivity.
Defined.


(** *** The counter *)

(** From any start within range the counter counts modulo [num_tasks]:
    [num_tasks] calls bring it back to where it was. *)
Theorem increment_calls_cycle (k : nat) (p : ProgressExtMod) :
  0 <= completed p < num_tasks p ->
  completed (increment_calls k p)
  = (completed p + Z.of_nat k) mod num_tasks p
  /\ completed (increment_calls (Z.to_nat (num_tasks p)) p) = completed p.
Proof.
  intros Hc.
  assert (H : forall j, completed (increment_calls j p)
                        = (completed p + Z.of_nat j) mod num_tasks p).
  { induction j as [|j IH].
    - cbn [increment_calls Z.of_nat]. rewrite Z.add_0_r, Z.mod_small; lia.
    - cbn [increment_calls].
      rewrite increment_call_completed, increment_calls_num_tasks, IH.
      set (n := num_tasks p) in *. set (x := completed p + Z.of_nat j).
      pose proof (Z.div_mod x n ltac:(lia)) as E.
      pose proof (Z.mod_pos_bound x n ltac:(lia)) as B.
      replace (completed p + Z.of_nat (S j)) with (x + 1) by (subst x; lia).
      destruct (Z.eqb_spec (x mod n + 1) n) as [Heq|Hne].
      + apply (Z.mod_unique_pos _ _ (x / n + 1)); nia.
      + apply (Z.mod_unique_pos _ _ (x / n)); nia. }
  split; [apply H|].
  rewrite H, Z2Nat.id by lia.
  rewrite <- (Z.mul_1_l (num_tasks p)) at 1.
  rewrite Z.mod_add by lia. apply Z.mod_small. lia.
Qed.

Lemma increment_calls_cycle_witness :
  let p := {| completed := 13; bar_color := "info"; num_tasks := 20 |} in
  completed (increment_calls 9 p) = (13 + 9) mod 20
  /\ completed (increment_calls (Z.to_nat 20) p) = 13.
Proof.
  intros p. apply (increment_calls_cycle 9 p). cbn. lia.
Defined.

(** The reset fires on equality only: once the counter is at or above
    [num_tasks] at the start of a call, it is never reset again and
    grows by one with each call. *)
Theorem increment_calls_overrun (k : nat) (p : ProgressExtMod) :
  num_tasks p <= completed p ->
  completed (increment_calls k p) = completed p + Z.of_nat k
  /\ num_tasks (increment_calls k p) = num_tasks p.
Proof.
  intros Hc. split; [|apply increment_calls_num_tasks].
  induction k as [|k IH].
  - cbn [increment_calls Z.of_nat]. lia.
  - cbn [increment_calls].
    rewrite increment_call_completed, increment_calls_num_tasks, IH.
    destruct (Z.eqb_spec (completed p + Z.of_nat k + 1) (num_tasks p)); lia.
Qed.

Lemma increment_calls_overrun_witness :
  let p := {| completed := 30; bar_color := "info"; num_tasks := 20 |} in
  completed (increment_calls 5 p) = 30 + 5
  /\ num_tasks (increment_calls 5 p) = 20.
Proof.
  intros p. apply (increment_calls_overrun 5 p). cbn. lia.
Defined.

(** *** Runs of the app *)

Lemma length_remove_nth {A : Type} (i : nat) (l : list A) x :
  nth_error l i = Some x ->
  List.length l = S (List.length (remove_nth i l)).
Proof.
  revert i. induction l as [|y l IH]; intros [|i] H; cbn in *;
    try discriminate; [reflexivity|].
  f_equal. apply IH. exact H.
Qed.

Lemma do_calc_keeps_invariant n s w :
  0 <= s -> run_invariant s w ->
  exists w', do_calc n w = Ok w' /\ run_invariant (s + 1) w'.
Proof.
  intros Hs (Hp & Hr & Hc & Hn).
  unfold do_calc, for_range. cbn [set_num_tasks Z.ltb Z.compare rbind].
  change (Z.to_nat 20) with 20%nat.
  eexists; split; [reflexivity|].
  match goal with |- context [Nat.iter 20 ?b ?w0] =>
    destruct (submit_loop 20 w0) as (Ep & Er & _ & _ & Ecb) end.
  cbv zeta in Ep, Er, Ecb.
  unfold run_invariant, pending in *. rewrite Ep, Er, Ecb.
  cbn [with_progress progress result ioloop_callbacks num_tasks completed].
  rewrite length_app, length_map, length_seq, Nat2Z.inj_add.
  change (Z.of_nat 20) with 20.
  replace (20 * (s + 1) - (Z.of_nat (List.length (ioloop_callbacks w)) + 20))
    with (20 * s - Z.of_nat (List.length (ioloop_callbacks w))) by lia.
  repeat split; lia.
Qed.

Lemma fire_keeps_invariant i s w :
  run_invariant s w ->
  exists w', fire i w = Ok w' /\ run_invariant s w'.
Proof.
  intros (Hp & Hr & Hc & Hn). unfold fire.
  destruct (nth_error (ioloop_callbacks w) i) as [[fut []]|] eqn:E.
  - rewrite _update_run. cbn [rbind snd].
    eexists; split; [reflexivity|].
    pose proof (length_remove_nth _ _ _ E) as Hl.
    unfold run_invariant, pending in *.
    cbn [with_progress with_result with_callbacks progress result
         ioloop_callbacks].
    rewrite Hl, Nat2Z.inj_succ in *.
    set (m := Z.of_nat (List.length (remove_nth i (ioloop_callbacks w)))) in *.
    assert (Hs : 0 < s) by lia.
    destruct Hn as [[Hs0 _]|[_ Hn]]; [lia|].
    rewrite increment_call_completed, increment_call_num_tasks, Hn, Hc.
    change _blocking_task with 5.
    set (x := 20 * s - Z.succ m) in *.
    replace (20 * s - m) with (x + 1) by (subst x; lia).
    pose proof (Z.div_mod x 20 ltac:(lia)) as Ex.
    pose proof (Z.mod_pos_bound x 20 ltac:(lia)) as Bx.
    repeat split; try lia.
    destruct (Z.eqb_spec (x mod 20 + 1) 20) as [Heq|Hne].
    + apply (Z.mod_unique_pos _ _ (x / 20 + 1)); lia.
    + apply (Z.mod_unique_pos _ _ (x / 20)); lia.
  - eexists; split; [reflexivity|]. unfold run_invariant. tauto.
Qed.

Lemma run_keeps_invariant ops s w :
  0 <= s -> run_invariant s w ->
  exists w', run ops w = Ok w' /\ run_invariant (s + starts ops) w'.
Proof.
  revert s w. induction ops as [|o ops IH]; intros s w Hs Hinv.
  - exists w. split; [reflexivity|].
    unfold starts. cbn. rewrite Z.add_0_r. exact Hinv.
  - destruct o as [n|i]; cbn [run step].
    + destruct (do_calc_keeps_invariant n s w Hs Hinv) as (w1 & E1 & H1).
      rewrite E1. cbn [rbind].
      destruct (IH (s + 1) w1 ltac:(lia) H1) as (w' & E' & H').
      exists w'. split; [exact E'|].
      unfold starts in *. cbn [filter is_start List.length].
      rewrite Nat2Z.inj_succ.
      replace (s + Z.succ (Z.of_nat (List.length (filter is_start ops))))
        with (s + 1 + Z.of_nat (List.length (filter is_start ops))) by lia.
      exact H'.
    + destruct (fire_keeps_invariant i s w Hinv) as (w1 & E1 & H1).
      rewrite E1. cbn [rbind].
      destruct (IH s w1 Hs H1) as (w' & E' & H').
      exists w'. split; [exact E'|]. exact H'.
Qed.

Lemma value_below_100 (p : ProgressExtMod) :
  0 <= completed p < num_tasks p -> num_tasks p < 2 ^ 54 ->
  exists v, value p = Ok v /\ 0 <= v < 100.
Proof.
  intros Hc Hlt. pose proof unit_pos as HP.
  rewrite (value_eq p) by lia.
  pose proof (ratio_below_one _ _ Hc Hlt) as Hf1.
  pose proof (ratio_bounds (completed p) (num_tasks p) ltac:(lia) ltac:(lia)) as Hf.
  set (f := round_b64 (completed p * unit) (num_tasks p)) in *.
  pose proof (product_below_100 f ltac:(lia)) as Hg1.
  pose proof (product_bounds f Hf) as Hg.
  set (g := round_b64 (100 * unit * f) unit) in *.
  eexists; split; [reflexivity|]. split.
  - apply Z.div_pos; lia.
  - apply Z.div_lt_upper_bound; [lia|].
    assert (Hlast : (100 * 2 ^ 46 - 1) * 2 ^ 1028 < unit * 100).
    { rewrite (Z.mul_comm unit 100), unit_grid_1028.
      change (2 ^ 46) with 70368744177664.
      assert (0 < 2 ^ 1028) by reflexivity.
      set (G := 2 ^ 1028) in *. clearbody G. lia. }
    clear - Hg1 Hlast. set (top := (100 * 2 ^ 46 - 1) * 2 ^ 1028) in *.
    clearbody top. lia.
Qed.

(** In every run of the app from its initial state, whatever the order
    in which START is pressed and tasks finish: nothing raises; [result]
    is 5 times the number of callbacks that have run; the counter is
    that number modulo 20 and stays below [num_tasks]; and the progress
    value is defined and below 100. *)
Theorem run_invariants (ops : list Op) :
  exists w,
    run ops World_new = Ok w
    /\ 0 <= pending w <= 20 * starts ops
    /\ result w = 5 * (20 * starts ops - pending w)
    /\ completed (progress w) = (20 * starts ops - pending w) mod 20
    /\ 0 <= completed (progress w) < num_tasks (progress w)
    /\ exists v, value (progress w) = Ok v /\ 0 <= v < 100.
Proof.
  assert (H0 : run_invariant 0 World_new).
  { unfold run_invariant, pending. cbn. lia. }
  destruct (run_keeps_invariant ops 0 World_new ltac:(lia) H0)
    as (w & E & (Hp & Hr & Hc & Hn)).
  rewrite Z.add_0_l in *.
  exists w. split; [exact E|].
  pose proof (Z.mod_pos_bound (20 * starts ops - pending w) 20 ltac:(lia)) as B.
  assert (Hrange : 0 <= completed (progress w) < num_tasks (progress w)).
  { destruct Hn as [[Hs Hn]|[Hs Hn]]; rewrite Hn; lia. }
  repeat split; try lia.
  apply value_below_100; [exact Hrange|].
  destruct Hn as [[_ ->]|[_ ->]]; reflexivity.
Qed.

(** When every submitted task has finished, the counter is back at 0,
    the progress bar is hidden, and [result] is 100 for each press of
    START. *)
Theorem all_tasks_done (ops : list Op) (w : World) :
  run ops World_new = Ok w -> ioloop_callbacks w = [] ->
  completed (progress w) = 0
  /\ result w = 100 * starts ops
  /\ view (progress w) = Ok None.
Proof.
  intros E Hnil.
  assert (H0 : run_invariant 0 World_new).
  { unfold run_invariant, pending. cbn. lia. }
  destruct (run_keeps_invariant ops 0 World_new ltac:(lia) H0)
    as (w' & E' & (Hp & Hr & Hc & Hn)).
  rewrite E in E'. injection E' as <-. rewrite Z.add_0_l in *.
  unfold pending in *. rewrite Hnil in *. cbn [List.length Z.of_nat] in *.
  rewrite Z.sub_0_r in *.
  assert (Hc0 : completed (progress w) = 0).
  { rewrite Hc, Z.mul_comm. apply Z.mod_mul. lia. }
  split; [exact Hc0|]. split; [lia|].
  unfold view.
  rewrite (value_at_zero (progress w)
             ltac:(destruct Hn as [[_ ->]|[_ ->]]; lia) Hc0).
  reflexivity.
Qed.

Lemma all_tasks_done_witness :
  exists w,
    run (Start 10 :: repeat (Done 0) 20) World_new = Ok w
    /\ completed (progress w) = 0
    /\ result w = 100 * starts (Start 10 :: repeat (Done 0) 20)
    /\ view (progress w) = Ok None.
Proof.
  exists (match run (Start 10 :: repeat (Done 0) 20) World_new with
          | Ok w => w
          | Raise _ => World_new
          end).
  split; [vm_compute; reflexivity|].
  apply (all_tasks_done (Start 10 :: repeat (Done 0) 20));
    vm_compute; reflexivity.
Defined.

End AsyncTasksMore.

(** * Further facts about examples/image_classifier.py *)

Module ImageClassifierMore.
Import ImageClassifier ImageClassifierFacts ImageClassifierViews.
Local Open Scope string_scope.
Local Open Scope Z_scope.

Section WithExternals.
Context {ext : Externals}.

(** *** The model cache *)

Lemma KerasApplication_eqb_refl a : KerasApplication_eqb a a = true.
Proof.
  unfold KerasApplication_eqb.
  rewrite !String.eqb_refl, !Z.eqb_refl. reflexivity.
Qed.

Lemma KerasApplication_eqb_neq a b : a <> b -> KerasApplication_eqb a b = false.
Proof.
  intros H. destruct (KerasApplication_eqb a b) eqn:E; [|reflexivity].
  apply KerasApplication_eqb_eq in E. contradiction.
Qed.

Lemma filter_length_lt {A : Type} (f : A -> bool) (l : list A) x :
  In x l -> f x = false ->
  (List.length (filter f l) < List.length l)%nat.
Proof.
  intros Hin Hf. induction l as [|y l IH]; [destruct Hin|].
  cbn. destruct Hin as [->|Hin].
  - rewrite Hf. pose proof (filter_length_le f l). lia.
  - specialize (IH Hin). destruct (f y); cbn; lia.
Qed.

(** After [get_model] the application is the most recent entry, with the
    model that was handed out, and at most one other entry is kept. *)
Lemma cache_after_get_model_shape self w :
  (List.length (get_model_cache w) <= 2)%nat ->
  exists rest,
    cache_after_get_model self w = (self, model_in self w) :: rest
    /\ (List.length rest <= 1)%nat.
Proof.
  intros Hlen. unfold cache_after_get_model, model_in, cache_find.
  destruct (find _ (get_model_cache w)) as [e|] eqn:E; cbn [option_map].
  - eexists; split; [reflexivity|].
    apply find_some in E. destruct E as [Hin He].
    unfold cache_remove.
    pose proof (filter_length_lt
                  (fun e0 => negb (KerasApplication_eqb (fst e0) self))
                  _ e Hin ltac:(cbn; rewrite He; reflexivity)).
    lia.
  - destruct (get_model_cache w) as [|e1 l]; cbn.
    + exists []. split; [reflexivity | cbn; lia].
    + exists [e1]. split; [reflexivity | cbn; lia].
Qed.

Lemma cache_find_head self m rest :
  cache_find self ((self, m) :: rest) = Some m.
Proof.
  unfold cache_find. cbn. rewrite KerasApplication_eqb_refl. reflexivity.
Qed.

(** A second classification with the same application does not build
    the model again: it is served from the cache, the same model is
    used, and the only call on the model is [predict]. *)
Theorem second_classification_reuses_model self image image' report w :
  (List.length (get_model_cache w) <= 2)%nat ->
  let w1 := snd (get_top_predictions self image report w) in
  get_model_steps self w1 = []
  /\ model_in self w1 = model_in self w
  /\ filter is_model_event (classification_steps self image' w1)
     = [Predict (model_in self w) (preprocessed self image')].
Proof.
  intros Hlen w1. subst w1. rewrite get_top_predictions_run. cbn [snd].
  destruct (cache_after_get_model_shape self w Hlen) as (rest & E & _).
  assert (Hs : get_model_steps self
                 {| KERAS_APPLICATIONS := KERAS_APPLICATIONS w;
                    objects_is_KERAS_APPLICATIONS := objects_is_KERAS_APPLICATIONS w;
                    get_model_cache := cache_after_get_model self w;
                    app := report "" 0
                      (report ("Classifying image with '" ++ name self ++ "'... ") 85
                         (report "Processing image ... " 67
                            (report
                               ("Loading " ++ name self
                                ++ " model ... (The first time this is done it may take several minutes)")
                               10 (app w))));
                    log := log w ++ classification_steps self image w |} = []).
  { unfold get_model_steps. cbn [get_model_cache].
    rewrite E, cache_find_head. reflexivity. }
  assert (Hm : model_in self
                 {| KERAS_APPLICATIONS := KERAS_APPLICATIONS w;
                    objects_is_KERAS_APPLICATIONS := objects_is_KERAS_APPLICATIONS w;
                    get_model_cache := cache_after_get_model self w;
                    app := report "" 0
                      (report ("Classifying image with '" ++ name self ++ "'... ") 85
                         (report "Processing image ... " 67
                            (report
                               ("Loading " ++ name self
                                ++ " model ... (The first time this is done it may take several minutes)")
                               10 (app w))));
                    log := log w ++ classification_steps self image w |}
               = model_in self w).
  { unfold model_in at 1. cbn [get_model_cache].
    rewrite E, cache_find_head. reflexivity. }
  split; [exact Hs|]. split; [exact Hm|].
  rewrite classification_model_events, Hs, Hm. reflexivity.
Qed.

Lemma cache_after_second_get_model b c w1 mb rest :
  get_model_cache w1 = (b, mb) :: rest -> (List.length rest <= 1)%nat ->
  b <> c ->
  exists mc, cache_after_get_model c w1 = [(c, mc); (b, mb)].
Proof.
  intros E Hrest Hbc. unfold cache_after_get_model. rewrite E.
  unfold cache_find, cache_remove. cbn [find filter fst].
  rewrite (KerasApplication_eqb_neq b c Hbc). cbn [negb].
  destruct rest as [|e [|e' rest]]; [| |cbn in Hrest; lia].
  - eexists. reflexivity.
  - cbn [find filter].
    destruct (KerasApplication_eqb (fst e) c) eqn:Ee; eexists; reflexivity.
Qed.

(** The cache keeps the two applications asked for last: after
    [get_model] for [b] and then for a different [c] it holds exactly
    [c] and [b], so any third application has to be built again. *)
Theorem lru_keeps_two_most_recent b c w :
  (List.length (get_model_cache w) <= 2)%nat -> b <> c ->
  let w2 := snd (get_model c (snd (get_model b w))) in
  map fst (get_model_cache w2) = [c; b]
  /\ get_model_steps b w2 = [] /\ get_model_steps c w2 = []
  /\ forall a, a <> b -> a <> c ->
       get_model_steps a w2
       = [CallKerasApplication (keras_application a) "imagenet"].
Proof.
  intros Hlen Hbc w2. subst w2.
  destruct (cache_after_get_model_shape b w Hlen) as (rest & E & Hrest).
  set (w1 := snd (get_model b w)).
  assert (E1 : get_model_cache w1 = (b, model_in b w) :: rest)
    by (subst w1; rewrite get_model_run; exact E).
  clearbody w1. rewrite get_model_run. cbn [snd].
  destruct (cache_after_second_get_model b c w1 _ rest E1 Hrest Hbc)
    as (mc & E2).
  unfold get_model_steps. cbn [get_model_cache]. rewrite E2.
  unfold cache_find. cbn [map fst find].
  rewrite (KerasApplication_eqb_refl c), (KerasApplication_eqb_refl b).
  rewrite (KerasApplication_eqb_neq c b ltac:(congruence)).
  cbn [option_map].
  split; [reflexivity|]. split; [reflexivity|]. split; [reflexivity|].
  intros a Hab Hac.
  rewrite (KerasApplication_eqb_neq c a ltac:(congruence)),
          (KerasApplication_eqb_neq b a ltac:(congruence)).
  reflexivity.
Qed.

(** *** The main prediction string *)

Lemma string_map_length f s :
  String.length (string_map f s) = String.length s.
Proof. induction s as [|c s IH]; cbn; congruence. Qed.

Lemma no_underscore_upper c :
  ascii_upper (if Ascii.eqb c "_" then " " else c) <> "_"%char.
Proof.
  destruct c as [[] [] [] [] [] [] [] []]; vm_compute; discriminate.
Qed.

Lemma no_underscore_lower c :
  ascii_lower (if Ascii.eqb c "_" then " " else c) <> "_"%char.
Proof.
  destruct c as [[] [] [] [] [] [] [] []]; vm_compute; discriminate.
Qed.

Lemma lower_not_upper c : is_ascii_upper (ascii_lower c) = false.
Proof.
  destruct c as [[] [] [] [] [] [] [] []]; vm_compute; reflexivity.
Qed.

Lemma upper_not_lower c : is_ascii_lower (ascii_upper c) = false.
Proof.
  destruct c as [[] [] [] [] [] [] [] []]; vm_compute; reflexivity.
Qed.

Lemma capitalized_text s :
  let text := str_capitalize (str_replace_underscore s) in
  String.length text = String.length s
  /\ ~ In "_"%char (list_ascii_of_string text)
  /\ match text with
     | EmptyString => s = EmptyString
     | String c rest =>
         is_ascii_lower c = false
         /\ Forall (fun c' => is_ascii_upper c' = false)
                   (list_ascii_of_string rest)
     end.
Proof.
  destruct s as [|c s]; cbn; [auto|].
  split; [|split; [|split]].
  - rewrite !string_map_length. reflexivity.
  - intros [H|H]; [exact (no_underscore_upper c H)|].
    induction s as [|c' s IH]; cbn in H; [exact H|].
    destruct H as [H|H]; [exact (no_underscore_lower c' H) | exact (IH H)].
  - apply upper_not_lower.
  - induction s as [|c' s IH]; cbn; constructor;
      [apply lower_not_upper | exact IH].
Qed.

(** [to_main_prediction_string] raises [IndexError] on an empty list.
    Otherwise it only looks at the name of the first prediction and
    returns ["It's a **" ++ text ++ "**"], where [text] is as long as
    the name, has no underscore, does not start with a lower-case
    letter and has no upper-case letter after its first character. *)
Theorem main_prediction_string_shape (predictions : list Prediction) :
  match predictions with
  | [] => to_main_prediction_string predictions = Raise IndexError
  | (id, prediction, p) :: rest =>
      exists text,
        to_main_prediction_string predictions = Ok ("It's a **" ++ text ++ "**")
        /\ to_main_prediction_string [(id, prediction, p)]
           = to_main_prediction_string predictions
        /\ String.length text = String.length prediction
        /\ ~ In "_"%char (list_ascii_of_string text)
        /\ match text with
           | EmptyString => prediction = EmptyString
           | String c rest =>
               is_ascii_lower c = false
               /\ Forall (fun c' => is_ascii_upper c' = false)
                         (list_ascii_of_string rest)
           end
  end.
Proof.
  destruct predictions as [|[[id prediction] p] rest]; [reflexivity|].
  exists (str_capitalize (str_replace_underscore prediction)).
  split; [reflexivity|]. split; [reflexivity|].
  apply capitalized_text.
Qed.

(** *** The views *)

(** The two result views never raise: the guard on [top_predictions]
    keeps the indexing in [to_main_prediction_string] safe.  They show
    "Not Available" exactly when the model or the predictions are
    missing. *)
Theorem result_views_never_raise (self : ImageClassifierApp) :
  (exists pane, main_prediction_view self = Ok pane)
  /\ (exists pane, predictions_chart_view self = Ok pane)
  /\ (model_truthy self && top_predictions_truthy self = false <->
      main_prediction_view self = Ok (PaneStr "Not Available"))
  /\ (model_truthy self && top_predictions_truthy self = false <->
      predictions_chart_view self = Ok (PaneStr "Not Available"))
  /\ (model_truthy self && top_predictions_truthy self = true ->
      exists top,
        top_predictions self = Some top
        /\ predictions_chart_view self
           = Ok (PaneVega (to_predictions_chart top) 200 400)
        /\ exists text,
             main_prediction_view self = Ok (PaneMarkdown text)
             /\ to_main_prediction_string top = Ok text).
Proof.
  unfold main_prediction_view, predictions_chart_view, model_truthy,
    top_predictions_truthy.
  destruct (model self) as [m|], (top_predictions self) as [[|[[i n] p] ps]|];
    cbn; repeat split; eauto; try discriminate.
  intros _. eexists. split; [reflexivity|]. split; [reflexivity|].
  eexists. split; reflexivity.
Qed.

(** *** Operations on the app *)

Lemma report_progress_fields message value a :
  model (report_progress message value a) = model a
  /\ image_file (report_progress message value a) = image_file a
  /\ top_predictions (report_progress message value a) = top_predictions a
  /\ progress_value (report_progress message value a) = value.
Proof. repeat split. Qed.

Lemma cache_after_get_model_length self w :
  (List.length (get_model_cache w) <= 2)%nat ->
  (List.length (cache_after_get_model self w) <= 2)%nat.
Proof.
  intros H. destruct (cache_after_get_model_shape self w H) as (rest & -> & Hr).
  cbn. lia.
Qed.

Lemma set_top_predictions_keeps_invariant w :
  progress_value (app w) = 0
  \/ (progress_value (app w) = 1
      /\ progress_message (app w) = "Prediction Started") ->
  (List.length (get_model_cache w) <= 2)%nat ->
  app_invariant (snd (set_top_predictions w)).
Proof.
  intros Hp Hlen. unfold app_invariant.
  destruct (image_file_truthy (app w) && model_truthy (app w)) eqn:E.
  - pose proof (proj1 (truthy_cases (app w)) E) as (b & bytes & m & Hi & Hm).
    destruct (Image_open (b :: bytes)) as [image|] eqn:Ho.
    + rewrite (set_top_predictions_run w b bytes m image Hi Hm Ho).
      cbn [snd app get_model_cache].
      split; [|split].
      * left. destruct (decoded _ _ _); reflexivity.
      * intros _. unfold model_truthy, image_file_truthy.
        destruct (decoded _ _ _); cbn; rewrite Hi, Hm; auto.
      * apply cache_after_get_model_length. exact Hlen.
    + rewrite (set_top_predictions_unidentified w b bytes m Hi Hm Ho).
      cbn [snd app get_model_cache].
      split; [|split; [|exact Hlen]].
      * right. repeat split.
      * unfold top_predictions_truthy. cbn. discriminate.
  - rewrite (set_top_predictions_idle w E). cbn [snd app get_model_cache].
    split; [|split; [|exact Hlen]].
    + cbn [with_top_predictions progress_value progress_message top_predictions].
      destruct Hp as [Hp | [Hp Hs]]; [left; exact Hp | right; auto].
    + unfold top_predictions_truthy. cbn. discriminate.
Qed.

Lemma app_step_keeps_invariant o w :
  app_invariant w -> app_invariant (app_step o w).
Proof.
  intros (Hp & Ht & Hlen).
  assert (Hp' : progress_value (app w) = 0
                \/ (progress_value (app w) = 1
                    /\ progress_message (app w) = "Prediction Started"))
    by (destruct Hp as [Hp | (Hp & Hs & _)]; auto).
  destruct o as [v|v]; cbn [app_step].
  - destruct (is_equal (image_file (app w)) v) eqn:E.
    + apply is_equal_eq in E. subst v. rewrite set_image_file_unchanged.
      exact (conj Hp (conj Ht Hlen)).
    + rewrite set_image_file_changed
        by (intros H; apply is_equal_eq in H; congruence).
      apply set_top_predictions_keeps_invariant; assumption.
  - destruct (set_model_runs_watcher v w)
      as (w1 & _ & _ & _ & Hv & Hs & Hc & _ & ->).
    apply set_top_predictions_keeps_invariant.
    + rewrite Hv, Hs. exact Hp'.
    + rewrite Hc. exact Hlen.
Qed.

Lemma init_invariant :
  app_invariant (snd (ImageClassifierApp_init World_new)).
Proof.
  unfold app_invariant. cbn. split; [left; reflexivity|].
  split; [discriminate | lia].
Qed.

Lemma app_run_keeps_invariant ops w :
  app_invariant w -> app_invariant (app_run ops w).
Proof.
  unfold app_run. revert w. induction ops as [|o ops IH]; intros w H; cbn.
  - exact H.
  - apply IH. apply app_step_keeps_invariant. exact H.
Qed.


(** Uploading an image with a model selected shows the result: when
    the bytes differ from the file the app holds, open as an image, and
    the decoder returns at least one prediction for it, after the upload
    the predictions are stored, the view is the result column, the main
    view names the first prediction, the chart view charts the stored
    predictions and the image view shows the upload. *)
Theorem upload_shows_result w b bytes m image p ps others :
  image_file (app w) <> Some (b :: bytes) ->
  model (app w) = Some m ->
  Image_open (b :: bytes) = Some image ->
  decoded m (model_in m w) image = (p :: ps) :: others ->
  let w' := app_step (Upload (Some (b :: bytes))) w in
  top_predictions (app w') = Some (p :: ps)
  /\ progress_value (app w') = 0 /\ progress_message (app w') = ""
  /\ predictions_view (app w')
     = Column [ Markdown "## Prediction";
                ParamMethod ImageClassifier.main_prediction_view;
                Markdown "## Alternative Predictions";
                ParamMethod ImageClassifier.predictions_chart_view ]
              "stretch_width"
  /\ main_prediction_view (app w')
     = Ok (PaneMarkdown
             ("It's a **"
              ++ str_capitalize (str_replace_underscore (prediction_name p))
              ++ "**"))
  /\ predictions_chart_view (app w')
     = Ok (PaneVega (to_predictions_chart (p :: ps)) 200 400)
  /\ image_view (app w') = PaneJPG (b :: bytes) 300.
Proof.
  intros Hne Hm Ho Hd w'. subst w'. cbn [app_step].
  rewrite (set_image_file_changed _ w Hne).
  match goal with |- context [set_top_predictions ?w0] =>
    rewrite (set_top_predictions_run w0 b bytes m image eq_refl Hm Ho) end.
  unfold model_in in *. cbn [get_model_cache]. rewrite Hd.
  cbn [snd app]. unfold predictions_view, main_prediction_view,
    predictions_chart_view, image_view, top_predictions_truthy.
  cbn [with_top_predictions with_image_file report_progress top_predictions
       progress_value progress_message model image_file Z.eqb negb].
  rewrite Hm. destruct p as [[i n] x]. cbn. repeat split.
Qed.

(** An upload that is not classified leaves no stale result.
    Uploading the bytes the app already holds does nothing at all.  Any
    other upload clears [top_predictions]: with a cleared file, an
    empty upload or no model, the progress is as before and the view,
    if not in progress, is the empty pane; when the decoder returns
    nothing for the image the view is the empty pane; and when the
    bytes are no image the view is the progress column stuck at 1. *)
Theorem upload_without_result w v :
  let w' := app_step (Upload v) w in
  (image_file (app w) = v -> w' = w)
  /\ (image_file (app w) <> v ->
      (v = None \/ v = Some [] \/ model (app w) = None ->
       top_predictions (app w') = None
       /\ progress_value (app w') = progress_value (app w)
       /\ (progress_value (app w) = 0 -> predictions_view (app w') = HTML))
      /\ (forall b bytes m image,
            v = Some (b :: bytes) -> model (app w) = Some m ->
            Image_open (b :: bytes) = Some image ->
            decoded m (model_in m w) image = [] ->
            top_predictions (app w') = None
            /\ predictions_view (app w') = HTML)
      /\ (forall b bytes m,
            v = Some (b :: bytes) -> model (app w) = Some m ->
            Image_open (b :: bytes) = None ->
            top_predictions (app w') = None
            /\ progress_value (app w') = 1
            /\ predictions_view (app w')
               = Column [ Markdown "## Prediction";
                          Progress 1 200;
                          Str "Prediction Started" ]
                        "stretch_width")).
Proof.
  intros w'. subst w'. cbn [app_step]. split.
  { intros <-. rewrite set_image_file_unchanged. reflexivity. }
  intros Hne. rewrite (set_image_file_changed v w Hne).
  set (w0 := {| KERAS_APPLICATIONS := KERAS_APPLICATIONS w;
                objects_is_KERAS_APPLICATIONS := objects_is_KERAS_APPLICATIONS w;
                get_model_cache := get_model_cache w;
                app := _; log := log w |}).
  assert (Hw0 : model (app w0) = model (app w) /\ image_file (app w0) = v
                /\ progress_value (app w0) = progress_value (app w)
                /\ get_model_cache w0 = get_model_cache w) by (repeat split).
  destruct Hw0 as (Em & Ei & Ep & Ec). clearbody w0.
  split; [|split].
  - intros H.
    assert (E : image_file_truthy (app w0) && model_truthy (app w0) = false).
    { unfold image_file_truthy, model_truthy. rewrite Ei, Em.
      destruct H as [-> | [-> | ->]]; [reflexivity | reflexivity |].
      apply andb_false_r. }
    rewrite (set_top_predictions_idle w0 E). cbn [snd app].
    split; [reflexivity|]. split; [exact Ep|].
    intros H0. unfold predictions_view.
    cbn [with_top_predictions progress_value]. rewrite Ep, H0. reflexivity.
  - intros b bytes m image -> Hm Ho Hd.
    rewrite (set_top_predictions_run w0 b bytes m image Ei ltac:(congruence) Ho).
    unfold model_in in *. rewrite Ec, Hd. cbn [snd app].
    split; reflexivity.
  - intros b bytes m -> Hm Ho.
    rewrite (set_top_predictions_unidentified w0 b bytes m Ei
               ltac:(congruence) Ho).
    cbn [snd app]. repeat split.
Qed.

(** *** The list of the model picker *)

(** The watcher leaves the two watched parameters, the global list and
    the picker's list alone. *)
Lemma set_top_predictions_frame w :
  let w' := snd (set_top_predictions w) in
  KERAS_APPLICATIONS w' = KERAS_APPLICATIONS w
  /\ objects_is_KERAS_APPLICATIONS w' = objects_is_KERAS_APPLICATIONS w
  /\ param_model_objects (app w') = param_model_objects (app w)
  /\ model (app w') = model (app w)
  /\ image_file (app w') = image_file (app w).
Proof.
  cbv zeta.
  destruct (image_file_truthy (app w) && model_truthy (app w)) eqn:E.
  - pose proof (proj1 (truthy_cases (app w)) E) as (b & bytes & m & Hi & Hm).
    destruct (Image_open (b :: bytes)) as [image|] eqn:Ho.
    + rewrite (set_top_predictions_run w b bytes m image Hi Hm Ho).
      cbn [snd KERAS_APPLICATIONS objects_is_KERAS_APPLICATIONS app].
      destruct (decoded _ _ _); repeat split.
    + rewrite (set_top_predictions_unidentified w b bytes m Hi Hm Ho).
      repeat split.
  - rewrite (set_top_predictions_idle w E). repeat split.
Qed.

Lemma set_model_eq v w :
  set_model v w
  = set_top_predictions
      (snd (modify_app (with_model (Some v))
              (snd ((if existsb (KerasApplication_eqb v)
                          (param_model_objects (app w))
                     then ret tt
                     else param_model_objects_append v) w)))).
Proof.
  unfold set_model. run_step get_app_run.
  destruct (existsb (KerasApplication_eqb v) (param_model_objects (app w)));
    reflexivity.
Qed.

Lemma set_model_objects v w :
  let w' := snd (set_model v w) in
  let known := existsb (KerasApplication_eqb v) (param_model_objects (app w)) in
  model (app w') = Some v
  /\ objects_is_KERAS_APPLICATIONS w' = objects_is_KERAS_APPLICATIONS w
  /\ param_model_objects (app w')
     = (if known then param_model_objects (app w)
        else param_model_objects (app w) ++ [v])%list
  /\ KERAS_APPLICATIONS w'
     = (if known then KERAS_APPLICATIONS w
        else if objects_is_KERAS_APPLICATIONS w
             then KERAS_APPLICATIONS w ++ [v]
             else KERAS_APPLICATIONS w)%list.
Proof.
  cbv zeta. rewrite set_model_eq.
  match goal with |- context [set_top_predictions ?W] =>
    destruct (set_top_predictions_frame W) as (-> & -> & -> & -> & _)
  end.
  destruct (existsb (KerasApplication_eqb v) (param_model_objects (app w)));
    repeat split.
Qed.

Lemma app_step_keeps_picker_invariant o w :
  picker_invariant w -> picker_invariant (app_step o w).
Proof.
  intros (Hf & Ho & picked & Hk). destruct o as [v|v]; cbn [app_step].
  - destruct (is_equal (image_file (app w)) v) eqn:E.
    + apply is_equal_eq in E. subst v. rewrite set_image_file_unchanged.
      exact (conj Hf (conj Ho (ex_intro _ picked Hk))).
    + rewrite set_image_file_changed
        by (intros H; apply is_equal_eq in H; congruence).
      match goal with |- context [set_top_predictions ?W] =>
        destruct (set_top_predictions_frame W) as (Hk' & Hf' & Ho' & _)
      end.
      unfold picker_invariant. rewrite Hk', Hf', Ho'.
      cbn [KERAS_APPLICATIONS objects_is_KERAS_APPLICATIONS app
           with_image_file param_model_objects].
      exact (conj Hf (conj Ho (ex_intro _ picked Hk))).
  - destruct (set_model_objects v w) as (_ & Hf' & Ho' & Hk').
    unfold picker_invariant. rewrite Hf', Ho', Hk', Hf, Ho.
    split; [reflexivity|].
    destruct (existsb (KerasApplication_eqb v) (KERAS_APPLICATIONS w)).
    + split; [reflexivity|]. exists picked. exact Hk.
    + split; [reflexivity|]. exists (picked ++ [v])%list.
      rewrite Hk, app_assoc. reflexivity.
Qed.

Lemma init_picker_invariant :
  picker_invariant (snd (ImageClassifierApp_init World_new)).
Proof.
  unfold picker_invariant. cbn. repeat split. exists []. reflexivity.
Qed.

Lemma app_run_keeps_picker_invariant ops w :
  picker_invariant w -> picker_invariant (app_run ops w).
Proof.
  unfold app_run. revert w. induction ops as [|o ops IH]; intros w H; cbn.
  - exact H.
  - apply IH. apply app_step_keeps_picker_invariant. exact H.
Qed.

(** Assigning [model] is never refused.  Whatever the user has uploaded
    and picked since the app was constructed, the picker's list is the
    global [KERAS_APPLICATIONS], which still begins with the eight
    configured applications; assigning an application that is in the
    list selects it and leaves the list alone, and assigning one that is
    not in the list selects it too and appends it to the list, so the
    global grows with it. *)
Theorem pick_extends_shared_list (ops : list AppOp) (v : KerasApplication) :
  let w := app_run ops (snd (ImageClassifierApp_init World_new)) in
  let w' := app_step (Pick v) w in
  param_model_objects (app w) = KERAS_APPLICATIONS w
  /\ (exists picked,
        KERAS_APPLICATIONS w = (keras_applications_table ++ picked)%list)
  /\ model (app w') = Some v
  /\ KERAS_APPLICATIONS w'
     = (if existsb (KerasApplication_eqb v) (KERAS_APPLICATIONS w)
        then KERAS_APPLICATIONS w
        else KERAS_APPLICATIONS w ++ [v])%list
  /\ param_model_objects (app w') = KERAS_APPLICATIONS w'.
Proof.
  intros w w'.
  destruct (app_run_keeps_picker_invariant ops _ init_picker_invariant)
    as (Hf & Ho & Hk).
  fold w in Hf, Ho, Hk.
  split; [exact Ho|]. split; [exact Hk|].
  subst w'. cbn [app_step].
  destruct (set_model_objects v w) as (Hm & _ & Ho' & Hk').
  rewrite Hm, Ho', Hk', Hf, Ho.
  split; [reflexivity|]. split; [reflexivity|].
  destruct (existsb (KerasApplication_eqb v) (KERAS_APPLICATIONS w)); reflexivity.
Qed.

(** [config_keras_applications] fills the global list once: it never
    replaces a list that is already there, a second call changes
    nothing, and it touches nothing but that global. *)
Theorem config_keras_applications_once w :
  let w1 := snd (config_keras_applications w) in
  fst (config_keras_applications w) = Ok tt
  /\ (KERAS_APPLICATIONS w <> [] -> w1 = w)
  /\ (KERAS_APPLICATIONS w = [] ->
      KERAS_APPLICATIONS w1 = keras_applications_table)
  /\ config_keras_applications w1 = (Ok tt, w1)
  /\ get_model_cache w1 = get_model_cache w
  /\ app w1 = app w /\ log w1 = log w.
Proof.
  unfold config_keras_applications.
  destruct w as [K o c a l]. destruct K as [|k K]; cbn; repeat split;
    congruence.
Qed.

End WithExternals.

#[local] Existing Instance example_externals.

Example example_main_prediction_string :
  to_main_prediction_string
    [ ("n02123159", "tiger_cat", 25); ("n02123045", "tabby", 61) ]
  = Ok "It's a **Tiger cat**"
  /\ to_main_prediction_string [ ("n02124075", "Egyptian_cat", 9) ]
     = Ok "It's a **Egyptian cat**".
Proof. split; reflexivity. Qed.

Lemma second_classification_reuses_model_witness :
  let self : KerasApplication :=
    {| name := "MobileNetV2";
       keras_application := "mobilenet_v2.MobileNetV2";
       preprocess_input_func := "mobilenet_v2.preprocess_input";
       decode_predictions_func := "mobilenet_v2.decode_predictions";
       load_img_func := "load_img";
       img_to_array_func := "img_to_array";
       input_shape := default_input_shape;
       url := "https://keras.io/applications/#mobilenet" |} in
  let w1 := snd (get_top_predictions (ext := example_externals)
                   self 2 print example_world) in
  get_model_steps self w1 = []
  /\ model_in self w1 = model_in self example_world
  /\ filter is_model_event
       (classification_steps (ext := example_externals) self 5 w1)
     = [Predict (model_in self example_world)
          (preprocessed (ext := example_externals) self 5)].
Proof.
  intros self.
  apply (second_classification_reuses_model (ext := example_externals)
           self 2 5 print example_world).
  cbn. lia.
Defined.

Lemma lru_keeps_two_most_recent_witness :
  let b := nth 0 keras_applications_table (nth 2 keras_applications_table
             {| name := ""; keras_application := ""; preprocess_input_func := "";
                decode_predictions_func := ""; load_img_func := "";
                img_to_array_func := ""; input_shape := (0, 0); url := "" |}) in
  let c := nth 1 keras_applications_table b in
  let w2 := snd (get_model c (snd (get_model b example_world))) in
  map fst (get_model_cache w2) = [c; b]
  /\ get_model_steps b w2 = [] /\ get_model_steps c w2 = []
  /\ forall a, a <> b -> a <> c ->
       get_model_steps a w2
       = [CallKerasApplication (keras_application a) "imagenet"].
Proof.
  intros b c.
  apply (lru_keeps_two_most_recent b c example_world).
  - cbn. lia.
  - discriminate.
Defined.

Lemma upload_shows_result_witness :
  let w := snd (ImageClassifierApp_init World_new) in
  let w' := app_step (Upload (Some example_png)) w in
  image_file (app w) <> Some example_png
  /\ top_predictions (app w')
     = Some [ ("n02123045", "tabby", 61);
              ("n02123159", "tiger_cat", 25);
              ("n02124075", "Egyptian_cat", 9) ]
  /\ main_prediction_view (app w') = Ok (PaneMarkdown "It's a **Tabby**").
Proof.
  intros w w'.
  assert (Hne : image_file (app w) <> Some example_png) by discriminate.
  split; [exact Hne|].
  pose proof (upload_shows_result w Byte.x89 (tl example_png)
                (nth 2 keras_applications_table
                   {| name := ""; keras_application := "";
                      preprocess_input_func := "";
                      decode_predictions_func := ""; load_img_func := "";
                      img_to_array_func := ""; input_shape := (0, 0);
                      url := "" |})
                69
                ("n02123045", "tabby", 61)
                [ ("n02123159", "tiger_cat", 25);
                  ("n02124075", "Egyptian_cat", 9) ]
                [] Hne eq_refl eq_refl eq_refl) as (H1 & _ & _ & _ & H5 & _).
  exact (conj H1 H5).
Defined.

Lemma upload_without_result_witness :
  let w := snd (ImageClassifierApp_init World_new) in
  let w' := app_step (Upload (Some example_text)) w in
  image_file (app w) <> Some example_text
  /\ top_predictions (app w') = None
  /\ progress_value (app w') = 1.
Proof.
  intros w w'.
  assert (Hne : image_file (app w) <> Some example_text) by discriminate.
  split; [exact Hne|].
  pose proof (proj2 (proj2 (proj2 (upload_without_result w (Some example_text))
                              Hne))
                Byte.x68 (tl example_text)
                (nth 2 keras_applications_table
                   {| name := ""; keras_application := "";
                      preprocess_input_func := "";
                      decode_predictions_func := ""; load_img_func := "";
                      img_to_array_func := ""; input_shape := (0, 0);
                      url := "" |})
                eq_refl eq_refl eq_refl) as (H1 & H2 & _).
  exact (conj H1 H2).
Defined.

(** A text file is uploaded and then cleared: the progress column stays
    on the screen. *)
Example unreadable_upload_sticks :
  let w := app_run [Upload (Some example_text); Upload None]
                   (snd (ImageClassifierApp_init World_new)) in
  image_file (app w) = None
  /\ progress_value (app w) = 1
  /\ predictions_view (app w)
     = Column [ Markdown "## Prediction";
                Progress 1 200;
                Str "Prediction Started" ]
              "stretch_width".
Proof. vm_compute. repeat split. Qed.

Lemma config_keras_applications_once_witness :
  KERAS_APPLICATIONS (snd (config_keras_applications World_new))
  = keras_applications_table.
Proof.
  apply (config_keras_applications_once World_new). reflexivity.
Defined.

Lemma result_views_never_raise_witness :
  main_prediction_view (app example_world) = Ok (PaneStr "Not Available").
Proof.
  apply (result_views_never_raise (app example_world)). reflexivity.
Defined.

End ImageClassifierMore.
